(** * Wind-resource temporal variability: the notebook's pipeline

    A shallow embedding of the five functions of [geospatial_task.ipynb]
    ([nearest_site], [h5_extractor], [windspeed_point_df_maker],
    [time_subset], [multiple_site_index]), of the archived draft of
    [multiple_site_index] in [archive/tech_task.qmd], and of the cells
    that call them.

    Numbers.  numpy/pandas cells are modelled as exact rationals extended
    with the three IEEE specials, so that what the code does on division
    by zero and on missing values is visible; rounding and overflow are
    not modelled.

    Objects.  pandas frames are objects on a heap: a function that
    receives a frame receives its address, and an assignment to
    [frame.columns] or [frame[col]] updates the object at that address. *)

From Stdlib Require Import QArith Qround ZArith List Bool Lia Permutation Sorted.
From stdpp Require Import base option gmap strings list fin_maps.

Local Open Scope string_scope.
Local Open Scope list_scope.
Local Open Scope Z_scope.

(** ** Floating-point cells *)

Inductive float :=
  | Fin (q : Q)
  | PInf
  | NInf
  | NaN.

Definition fin (q : Q) : float := Fin (Qred q).
Definition of_Z (z : Z) : float := Fin (inject_Z z).
Definition of_nat (n : nat) : float := of_Z (Z.of_nat n).

Definition np_isnan (x : float) : bool :=
  match x with NaN => true | _ => false end.

Definition np_isfinite (x : float) : bool :=
  match x with Fin _ => true | _ => false end.

(** IEEE addition and division on the extended rationals.
    A zero divisor is taken as [+0.0]. *)
Definition fadd (x y : float) : float :=
  match x, y with
  | NaN, _ | _, NaN => NaN
  | Fin a, Fin b => fin (a + b)
  | PInf, NInf | NInf, PInf => NaN
  | PInf, _ | _, PInf => PInf
  | NInf, _ | _, NInf => NInf
  end.

Definition fdiv (x y : float) : float :=
  match x, y with
  | NaN, _ | _, NaN => NaN
  | Fin a, Fin b =>
      if Qeq_bool b 0 then
        match (a ?= 0)%Q with
        | Gt => PInf
        | Lt => NInf
        | Eq => NaN
        end
      else fin (a / b)
  | Fin _, (PInf | NInf) => Fin 0
  | PInf, Fin b => if Qle_bool 0 b then PInf else NInf
  | NInf, Fin b => if Qle_bool 0 b then NInf else PInf
  | (PInf | NInf), (PInf | NInf) => NaN
  end.

(** Equality and order of cells as group keys; [NaN] equals nothing. *)
Definition feqb (x y : float) : bool :=
  match x, y with
  | Fin a, Fin b => Qeq_bool a b
  | PInf, PInf | NInf, NInf => true
  | _, _ => false
  end.

Definition fleb (x y : float) : bool :=
  match x, y with
  | NaN, _ | _, NaN => false
  | NInf, _ | _, PInf => true
  | Fin a, Fin b => Qle_bool a b
  | _, _ => false
  end.

(** ** Python exceptions and the two monads *)

Inductive exn :=
  | KeyError
  | IndexError
  | ValueError
  | TypeError
  | NameError.

Inductive result (A : Type) :=
  | Ok (a : A)
  | Raise (e : exn).
Arguments Ok {A} a.
Arguments Raise {A} e.

#[global] Instance result_ret : MRet result := fun _ a => Ok a.
#[global] Instance result_bind : MBind result := fun _ _ f m =>
  match m with
  | Ok a => f a
  | Raise e => Raise e
  end.

(** [d[k]] on a dict-like object. *)
Definition getitem {K V : Type} `{Countable K} (d : gmap K V) (k : K) : result V :=
  match d !! k with
  | Some v => Ok v
  | None => Raise KeyError
  end.

(** ** The HDF5 store: [raw_h5] *)

(** A data set is a rectangular array indexed [time, site] with its
    attributes. *)
Record Dataset := {
  ntime : nat;
  nsites : nat;
  raw : nat -> nat -> float;
  attrs : gmap string float
}.

(** [ds[:, i]] *)
Definition slice_column (ds : Dataset) (i : nat) : result (list float) :=
  if (i <? nsites ds)%nat
  then Ok (List.map (fun t => raw ds t i) (seq 0 (ntime ds)))
  else Raise IndexError.

(** [h5_extractor(raw_h5, variable, POI_indx)].  The returned one-column
    frame is represented by its column. *)
Definition h5_extractor (raw_h5 : gmap string Dataset) (variable : string)
    (POI_indx : nat) : result (list float) :=
  variable_raw ← getitem raw_h5 variable;
  column ← slice_column variable_raw POI_indx;
  scale_factor ← getitem (attrs variable_raw) "scale_factor";
  mret (List.map (fun x => fdiv x scale_factor) column).

(** ** Nearest site: [scipy.spatial.cKDTree]

    The tree is library code; [nearest_site] is written against its
    interface: building a tree from an [n x 2] array, and a
    one-neighbour query that returns a distance and a position. *)
Class KDTreeLib := {
  KDTree : Type;
  cKDTree : list (float * float) -> result KDTree;
  query : KDTree -> float * float -> result (float * nat)
}.

Definition nearest_site `{KDTreeLib} (coord_array : list (float * float))
    (lat_coord lon_coord : float) : result nat :=
  tree ← cKDTree coord_array;
  let lat_lon := (lat_coord, lon_coord) in
  '(dist, pos) ← query tree lat_lon;
  mret pos.

(** ** Column statistics (pandas [mean] and [std], both [skipna]) *)

Definition dropna (l : list float) : list float :=
  List.filter (fun x => negb (np_isnan x)) l.

Definition fsum (l : list float) : float := fold_left fadd l (Fin 0).

Definition mean (l : list float) : float :=
  match dropna l with
  | [] => NaN
  | v => fdiv (fsum v) (of_nat (length v))
  end.

Definition Qsum (l : list Q) : Q := fold_right Qplus 0%Q l.

Definition finite_value (x : float) : option Q :=
  match x with Fin q => Some q | _ => None end.

Section Std.
(** [numpy.sqrt] on finite non-negative numbers. *)
Variable np_sqrt : Q -> Q.

(** Sample standard deviation, [ddof = 1]: missing when fewer than two
    values are present, and when a value is infinite. *)
Definition std (l : list float) : float :=
  let v := dropna l in
  let n := length v in
  if (n <=? 1)%nat then NaN
  else match mapM finite_value v with
       | None => NaN
       | Some qs =>
           let m := (Qsum qs / inject_Z (Z.of_nat n))%Q in
           let sq := List.map (fun x => ((x - m) * (x - m))%Q) qs in
           fin (np_sqrt (Qsum sq / inject_Z (Z.of_nat (n - 1))))
       end.
End Std.

(** ** Calendar *)

Record Timestamp := {
  ts_year : Z;
  ts_month : Z;
  ts_day : Z;
  ts_hour : Z
}.

Record Date := {
  d_year : Z;
  d_month : Z;
  d_day : Z
}.

Definition is_leap (y : Z) : bool :=
  (y mod 4 =? 0) && (negb (y mod 100 =? 0) || (y mod 400 =? 0)).

Definition month_length (leap : bool) (m : Z) : Z :=
  match m with
  | 1 | 3 | 5 | 7 | 8 | 10 | 12 => 31
  | 4 | 6 | 9 | 11 => 30
  | 2 => if leap then 29 else 28
  | _ => 0
  end.

Definition days_in_month (y m : Z) : Z := month_length (is_leap y) m.

Definition date_leb (a b : Z * Z * Z) : bool :=
  let '(y, m, d) := a in
  let '(y', m', d') := b in
  (y <? y') || ((y =? y') && ((m <? m') || ((m =? m') && (d <=? d')))).

(** The days a nanosecond [Timestamp] can hold at midnight. *)
Definition timestamp_day (y m d : Z) : bool :=
  (1 <=? m) && (m <=? 12) && (1 <=? d) && (d <=? days_in_month y m)
  && date_leb (1677, 9, 22) (y, m, d) && date_leb (y, m, d) (2262, 4, 11).

Definition valid_timestamp (t : Timestamp) : bool :=
  timestamp_day (ts_year t) (ts_month t) (ts_day t)
  && (0 <=? ts_hour t) && (ts_hour t <=? 23).

(** [pd.to_datetime] on the text [y/m/d] of three integer cells that
    were taken from a timestamp; any other text is rejected here. *)
Definition to_datetime (y m d : Z) : result Date :=
  if timestamp_day y m d
  then Ok {| d_year := y; d_month := m; d_day := d |}
  else Raise ValueError.

Definition Zseq (start : Z) (len : nat) : list Z :=
  List.map (fun i => start + Z.of_nat i) (seq 0 len).

(** The hourly time axis of year [y]: one timestamp per hour. *)
Definition year_axis (y : Z) : list Timestamp :=
  m ← Zseq 1 12;
  d ← Zseq 1 (Z.to_nat (days_in_month y m));
  h ← Zseq 0 24;
  [ {| ts_year := y; ts_month := m; ts_day := d; ts_hour := h |} ].

(** ** Frames *)

Inductive label :=
  | LStr (s : string)
  | LInt (n : Z).

Definition label_eqb (a b : label) : bool :=
  match a, b with
  | LStr s, LStr s' => String.eqb s s'
  | LInt n, LInt n' => n =? n'
  | _, _ => false
  end.

(** A row of the frame built by [windspeed_point_df_maker].  The four
    calendar cells are integers, or missing after a re-index. *)
Record Row := {
  year : option Z;
  month : option Z;
  day : option Z;
  hour : option Z;
  latitude : float;
  longitude : float;
  windspeed : float;
  avg_windspeed : float
}.

Record HourRow := {
  hr_year : Z;
  hr_month : Z;
  hr_hour : Z;
  hr_avg_windspeed : float;
  hour_avg_windspeed : float;
  hr_standard_dev : float
}.

Record DayRow := {
  dy_year : Z;
  dy_month : Z;
  dy_day : Z;
  dy_avg_windspeed : float;
  daily_avg_windspeed : float;
  dy_standard_dev : float
}.

Record MonthRow := {
  mo_month : Z;
  mo_avg_windspeed : float;
  month_avg_windspeed : float;
  mo_standard_dev : float
}.

(** The frames of the notebook: a plain numeric frame with its column
    labels (the points of interest, the empty [results]), the point
    frame, and the three tables of [time_subset]; the daily table has its
    [date] column once it has been assigned. *)
Inductive DataFrame :=
  | Frame (columns : list label) (rows : list (list float))
  | Decorated (rows : list Row)
  | HourTable (rows : list HourRow)
  | DayTable (rows : list DayRow) (date : option (list Date))
  | MonthTable (rows : list MonthRow).

(** ** The heap of frames, standard output, and the state monad *)

Definition loc := nat.

Record State := {
  heap : gmap loc DataFrame;
  stdout : list string
}.

Definition M (A : Type) : Type := State -> State * result A.

#[global] Instance M_ret : MRet M := fun _ a σ => (σ, Ok a).
#[global] Instance M_bind : MBind M := fun _ _ f m σ =>
  match m σ with
  | (σ', Ok a) => f a σ'
  | (σ', Raise e) => (σ', Raise e)
  end.

Definition lift {A : Type} (r : result A) : M A := fun σ => (σ, r).

Definition raise {A : Type} (e : exn) : M A := lift (Raise e).

Definition deref (l : loc) : M DataFrame := fun σ =>
  (σ, match heap σ !! l with
      | Some d => Ok d
      | None => Raise NameError
      end).

Definition alloc (d : DataFrame) : M loc := fun σ =>
  let l := fresh (dom (heap σ)) in
  ({| heap := <[l := d]> (heap σ); stdout := stdout σ |}, Ok l).

Definition store (l : loc) (d : DataFrame) : M unit := fun σ =>
  ({| heap := <[l := d]> (heap σ); stdout := stdout σ |}, Ok tt).

Definition print (s : string) : M unit := fun σ =>
  ({| heap := heap σ; stdout := stdout σ ++ [s] |}, Ok tt).

Fixpoint for_each {A : Type} (l : list A) (body : A -> M unit) : M unit :=
  match l with
  | [] => mret tt
  | x :: l' => body x;; for_each l' body
  end.

(** ** [windspeed_point_df_maker] *)

(** [s.iloc[i]] *)
Definition iloc {A : Type} (s : list A) (i : nat) : result A :=
  match s !! i with
  | Some x => Ok x
  | None => Raise IndexError
  end.

(** Assigning a column aligns it on the frame's row index [0..n-1]:
    rows without a value get [NaN], values without a row are dropped. *)
Definition align (n : nat) (s : list float) : list float :=
  List.map (fun i => default NaN (s !! i)) (seq 0 n).

(** [windspeed_point_df_maker(time_df, coords_df, windspeed, POI_indx)].
    The body reads the notebook's global [windspeed_100], which is the
    first argument here; the parameter [windspeed] is not used by the
    body.

    The frame starts without rows and takes the rows of the first
    non-empty column assigned to it, the columns it already has being
    filled with [NaN].  With a time axis of at least one timestamp the
    rows are those of [time_df], and [windspeed_100] is aligned on them;
    with an empty [time_df] the rows are those of [windspeed_100], and
    the calendar and coordinate cells are missing. *)
Definition windspeed_point_df_maker (windspeed_100 : list float)
    (time_df : list Timestamp) (coords_df : list (float * float))
    (windspeed : list float) (POI_indx : nat) : M loc :=
  (* df['latitude'] = coords_df['latitude'].iloc[POI_indx] *)
  lat ← lift (iloc (coords_df.*1) POI_indx);
  (* df['longitude'] = coords_df['longitude'].iloc[POI_indx] *)
  lon ← lift (iloc (coords_df.*2) POI_indx);
  (* df['windspeed'] = windspeed_100 *)
  let column :=
    match time_df with
    | [] => windspeed_100
    | _ => align (length time_df) windspeed_100
    end in
  (* df['avg_windspeed'] = df['windspeed'].mean() *)
  let avg := mean column in
  let rows :=
    match time_df with
    | [] =>
        List.map (fun w =>
          {| year := None; month := None; day := None; hour := None;
             latitude := NaN; longitude := NaN;
             windspeed := w; avg_windspeed := avg |}) column
    | _ =>
        List.map (fun '(t, w) =>
          (* df['year'] = time_df['date_time'].dt.year, and so on *)
          {| year := Some (ts_year t); month := Some (ts_month t);
             day := Some (ts_day t); hour := Some (ts_hour t);
             latitude := lat; longitude := lon;
             windspeed := w; avg_windspeed := avg |})
          (combine time_df column)
    end in
  alloc (Decorated rows).

(** ** [DataFrame.groupby(keys, as_index=False)]

    pandas drops the rows in which a key cell is missing, and returns the
    groups in ascending order of their keys.  A key function returns
    [None] on a row to drop. *)
Section GroupBy.
Context {K : Type} (eqb leb : K -> K -> bool) (key : Row -> option K).

Fixpoint unique (ks : list K) : list K :=
  match ks with
  | [] => []
  | k :: ks' =>
      let u := unique ks' in
      if existsb (eqb k) u then u else k :: u
  end.

Fixpoint insert_key (k : K) (l : list K) : list K :=
  match l with
  | [] => [k]
  | x :: l' => if leb k x then k :: l else x :: insert_key k l'
  end.

Definition sort_keys (l : list K) : list K := fold_right insert_key [] l.

Definition has_key (k : K) (r : Row) : bool :=
  match key r with
  | Some k' => eqb k k'
  | None => false
  end.

Definition group_keys (rows : list Row) : list K :=
  sort_keys (unique (omap key rows)).

Definition groupby (rows : list Row) : list (K * list Row) :=
  List.map (fun k => (k, List.filter (has_key k) rows)) (group_keys rows).
End GroupBy.

Definition pair_eqb {A B : Type} (eqA : A -> A -> bool) (eqB : B -> B -> bool)
    (x y : A * B) : bool :=
  eqA x.1 y.1 && eqB x.2 y.2.

(** Lexicographic order on key tuples. *)
Definition lex_leb {A B : Type} (eqA leA : A -> A -> bool) (leB : B -> B -> bool)
    (x y : A * B) : bool :=
  if eqA x.1 y.1 then leB x.2 y.2 else leA x.1 y.1.

Definition notna (x : float) : option float :=
  if np_isnan x then None else Some x.

Definition ymx_eqb : Z * Z * Z -> Z * Z * Z -> bool :=
  pair_eqb (pair_eqb Z.eqb Z.eqb) Z.eqb.
Definition ymx_leb : Z * Z * Z -> Z * Z * Z -> bool :=
  lex_leb (pair_eqb Z.eqb Z.eqb) (lex_leb Z.eqb Z.leb Z.leb) Z.leb.

(** The key lists of the three branches of [time_subset]. *)
Definition key_hour (r : Row) : option (Z * Z * Z * float) :=
  y ← year r; m ← month r; h ← hour r; a ← notna (avg_windspeed r);
  Some (y, m, h, a).

Definition key_day (r : Row) : option (Z * Z * Z * float) :=
  y ← year r; m ← month r; d ← day r; a ← notna (avg_windspeed r);
  Some (y, m, d, a).

Definition key_month (r : Row) : option (Z * float) :=
  m ← month r; a ← notna (avg_windspeed r);
  Some (m, a).

Definition groupby_hour : list Row -> list (Z * Z * Z * float * list Row) :=
  groupby (pair_eqb ymx_eqb feqb) (lex_leb ymx_eqb ymx_leb fleb) key_hour.

Definition groupby_day : list Row -> list (Z * Z * Z * float * list Row) :=
  groupby (pair_eqb ymx_eqb feqb) (lex_leb ymx_eqb ymx_leb fleb) key_day.

Definition groupby_month : list Row -> list (Z * float * list Row) :=
  groupby (pair_eqb Z.eqb feqb) (lex_leb Z.eqb Z.leb fleb) key_month.

(** ** [time_subset] *)
Section TimeSubset.
Variable np_sqrt : Q -> Q.

(** [.agg(x = ('windspeed', 'mean'), standard_dev = ('windspeed', 'std'))] *)
Definition agg_hour (g : Z * Z * Z * float * list Row) : HourRow :=
  let '(y, m, h, a, rows) := g in
  {| hr_year := y; hr_month := m; hr_hour := h; hr_avg_windspeed := a;
     hour_avg_windspeed := mean (List.map windspeed rows);
     hr_standard_dev := std np_sqrt (List.map windspeed rows) |}.

Definition agg_day (g : Z * Z * Z * float * list Row) : DayRow :=
  let '(y, m, d, a, rows) := g in
  {| dy_year := y; dy_month := m; dy_day := d; dy_avg_windspeed := a;
     daily_avg_windspeed := mean (List.map windspeed rows);
     dy_standard_dev := std np_sqrt (List.map windspeed rows) |}.

Definition agg_month (g : Z * float * list Row) : MonthRow :=
  let '(m, a, rows) := g in
  {| mo_month := m; mo_avg_windspeed := a;
     month_avg_windspeed := mean (List.map windspeed rows);
     mo_standard_dev := std np_sqrt (List.map windspeed rows) |}.

(** The columns [time_subset] groups and aggregates exist in the point
    frame only. *)
Definition point_rows (d : DataFrame) : result (list Row) :=
  match d with
  | Decorated rows => Ok rows
  | _ => Raise KeyError
  end.

(** [time_subset(period, df)].  Each [groupby(...).agg(...)] builds a
    new frame and the local name [df] is bound to it; in the last
    branch [df] is still the argument. *)
Definition time_subset (period : string) (df : loc) : M loc :=
  if String.eqb period "hour" then
    d ← deref df;
    rows ← lift (point_rows d);
    alloc (HourTable (List.map agg_hour (groupby_hour rows)))
  else if String.eqb period "day" then
    d ← deref df;
    rows ← lift (point_rows d);
    let table := List.map agg_day (groupby_day rows) in
    df' ← alloc (DayTable table None);
    date ← lift (mapM (fun r => to_datetime (dy_year r) (dy_month r) (dy_day r)) table);
    store df' (DayTable table (Some date));;
    mret df'
  else if String.eqb period "month" then
    d ← deref df;
    rows ← lift (point_rows d);
    alloc (MonthTable (List.map agg_month (groupby_month rows)))
  else
    print "Period must be desginated as either hour, day, or month";;
    mret df.
End TimeSubset.

(** ** [multiple_site_index] *)

(** [df.columns = labels]: the frame at [df] is relabelled in place.  Only
    a plain frame has as many columns as the two labels assigned by the
    notebook. *)
Definition set_columns (df : loc) (labels : list label) : M unit :=
  d ← deref df;
  match d with
  | Frame columns rows =>
      if (length columns =? length labels)%nat
      then store df (Frame labels rows)
      else raise ValueError
  | _ => raise ValueError
  end.

(** [df.index], a range index. *)
Definition frame_index (df : loc) : M (list nat) :=
  d ← deref df;
  match d with
  | Frame _ rows => mret (seq 0 (length rows))
  | Decorated rows => mret (seq 0 (length rows))
  | HourTable rows => mret (seq 0 (length rows))
  | DayTable rows _ => mret (seq 0 (length rows))
  | MonthTable rows => mret (seq 0 (length rows))
  end.

Fixpoint position (c : label) (columns : list label) : option nat :=
  match columns with
  | [] => None
  | c' :: columns' =>
      if label_eqb c c' then Some 0%nat else S <$> position c columns'
  end.

(** [df[c]] on a plain frame: the column labelled [c]. *)
Definition getcolumn (df : loc) (c : label) : M (list float) :=
  d ← deref df;
  match d with
  | Frame columns rows =>
      match position c columns with
      | Some j => mret (List.map (fun row => default NaN (row !! j)) rows)
      | None => raise KeyError
      end
  | _ => raise KeyError
  end.

(** [s[ind]] *)
Definition at_label (s : list float) (ind : nat) : M float :=
  match s !! ind with
  | Some x => mret x
  | None => raise KeyError
  end.

Section MultipleSites.
Context `{KDTreeLib}.

(** [multiple_site_index(POI_df, coord_array)] of the notebook.
    [results] is an empty frame; [results[ind](POI_indx)] looks the
    column [ind] up and calls it. *)
Definition multiple_site_index (POI_df : loc)
    (coord_array : list (float * float)) : M loc :=
  set_columns POI_df [LStr "lat"; LStr "lon"];;
  results ← alloc (Frame [] []);
  index ← frame_index POI_df;
  for_each index (fun ind =>
    lat ← getcolumn POI_df (LStr "lat") ≫= (fun s => at_label s ind);
    lon ← getcolumn POI_df (LStr "lon") ≫= (fun s => at_label s ind);
    POI_indx ← lift (nearest_site coord_array lat lon);
    _ ← getcolumn results (LInt (Z.of_nat ind));
    raise TypeError);;
  mret results.
End MultipleSites.

(** The draft of [archive/tech_task.qmd]: [results] is a Python list and
    each index is appended to it. *)
Module Archive.
Section MultipleSites.
Context `{KDTreeLib}.

Fixpoint loop (POI_df : loc) (coord_array : list (float * float))
    (index : list nat) (results : list nat) : M (list nat) :=
  match index with
  | [] => mret results
  | ind :: index' =>
      lat ← getcolumn POI_df (LStr "lat") ≫= (fun s => at_label s ind);
      lon ← getcolumn POI_df (LStr "lon") ≫= (fun s => at_label s ind);
      POI_indx ← lift (nearest_site coord_array lat lon);
      loop POI_df coord_array index' (results ++ [POI_indx])
  end.

Definition multiple_site_index (POI_df : loc)
    (coord_array : list (float * float)) : M (list nat) :=
  set_columns POI_df [LStr "lat"; LStr "lon"];;
  index ← frame_index POI_df;
  loop POI_df coord_array index [].
End MultipleSites.
End Archive.

(** ** Vocabulary of the statements *)

(** The query point held by a row of the points frame: its first two
    cells. *)
Definition row_lat (row : list float) : float := default NaN (row !! 0%nat).
Definition row_lon (row : list float) : float := default NaN (row !! 1%nat).

(** The calendar cells of a row, and those a timestamp gives. *)
Definition calendar (r : Row) : option Z * option Z * option Z * option Z :=
  (year r, month r, day r, hour r).

Definition stamp (t : Timestamp) : option Z * option Z * option Z * option Z :=
  (Some (ts_year t), Some (ts_month t), Some (ts_day t), Some (ts_hour t)).

(** A series with one row per hour of year [y], in the order of the time
    axis. *)
Definition full_year (y : Z) (rows : list Row) : Prop :=
  List.map calendar rows = List.map stamp (year_axis y).

(** The rows of calendar month [m]. *)
Definition in_month (m : Z) (r : Row) : bool :=
  match month r with
  | Some m' => m =? m'
  | None => false
  end.

(** The dates of the rows are days a timestamp can hold, as they are when
    the calendar cells were taken from timestamps. *)
Definition dates_ok (rows : list Row) : Prop :=
  Forall (fun r => forall y m d,
            year r = Some y -> month r = Some m -> day r = Some d ->
            timestamp_day y m d = true) rows.

(** The groups behind the rows of the table of a period, and the
    [standard_dev] column of a table. *)
Definition groups_of (period : string) (rows : list Row) : list (list Row) :=
  if String.eqb period "hour" then List.map snd (groupby_hour rows)
  else if String.eqb period "day" then List.map snd (groupby_day rows)
  else if String.eqb period "month" then List.map snd (groupby_month rows)
  else [].

Definition standard_devs (d : DataFrame) : list float :=
  match d with
  | HourTable t => List.map hr_standard_dev t
  | DayTable t _ => List.map dy_standard_dev t
  | MonthTable t => List.map mo_standard_dev t
  | _ => []
  end.

(** ** Grouping by the temporal keys alone

    The aggregation as the design describes it: the rows are grouped by
    (year, month, hour), by (year, month, day) or by month, and a given
    whole-series mean [c] is carried into every row of the table. *)
Module Temporal.
Definition key_hour (r : Row) : option (Z * Z * Z) :=
  y ← year r; m ← month r; h ← hour r; Some (y, m, h).

Definition key_day (r : Row) : option (Z * Z * Z) :=
  y ← year r; m ← month r; d ← day r; Some (y, m, d).

Definition key_month (r : Row) : option Z := month r.

Definition groupby_hour : list Row -> list (Z * Z * Z * list Row) :=
  groupby ymx_eqb ymx_leb key_hour.

Definition groupby_day : list Row -> list (Z * Z * Z * list Row) :=
  groupby ymx_eqb ymx_leb key_day.

Definition groupby_month : list Row -> list (Z * list Row) :=
  groupby Z.eqb Z.leb key_month.

(** A temporal group with the carried constant. *)
Definition carry {T : Type} (c : float) (g : T * list Row) : T * float * list Row :=
  (g.1, c, g.2).

Section TimeSubset.
Variable np_sqrt : Q -> Q.
Variable c : float.

Definition time_subset (period : string) (df : loc) : M loc :=
  if String.eqb period "hour" then
    d ← deref df;
    rows ← lift (point_rows d);
    alloc (HourTable (List.map (fun g => agg_hour np_sqrt (carry c g)) (groupby_hour rows)))
  else if String.eqb period "day" then
    d ← deref df;
    rows ← lift (point_rows d);
    let table := List.map (fun g => agg_day np_sqrt (carry c g)) (groupby_day rows) in
    df' ← alloc (DayTable table None);
    date ← lift (mapM (fun r => to_datetime (dy_year r) (dy_month r) (dy_day r)) table);
    store df' (DayTable table (Some date));;
    mret df'
  else if String.eqb period "month" then
    d ← deref df;
    rows ← lift (point_rows d);
    alloc (MonthTable (List.map (fun g => agg_month np_sqrt (carry c g)) (groupby_month rows)))
  else
    print "Period must be desginated as either hour, day, or month";;
    mret df.
End TimeSubset.
End Temporal.

(** ** Stand-ins for the libraries, to run the examples

    A linear scan in place of the tree: squared distances over finite
    coordinates, the first of the nearest points reported with its
    squared distance.  A square root to nine decimal places. *)
Module Fixture.
Definition sqdist (p q : Q * Q) : Q :=
  ((p.1 - q.1) * (p.1 - q.1) + (p.2 - q.2) * (p.2 - q.2))%Q.

Definition finite_point (p : float * float) : result (Q * Q) :=
  match p with
  | (Fin a, Fin b) => Ok (a, b)
  | _ => Raise ValueError
  end.

Fixpoint scan (x : Q * Q) (pts : list (Q * Q)) (i : nat) (best : Q * nat) : Q * nat :=
  match pts with
  | [] => best
  | p :: pts' =>
      let d := sqdist x p in
      scan x pts' (S i) (if Qle_bool best.1 d then best else (d, i))
  end.

Definition scan_query (pts : list (Q * Q)) (x : float * float) : result (float * nat) :=
  x' ← finite_point x;
  match pts with
  | [] => Ok (PInf, 0%nat)
  | p :: pts' =>
      let '(d, i) := scan x' pts' 1%nat (sqdist x' p, 0%nat) in
      Ok (fin d, i)
  end.

Definition linear_scan : KDTreeLib :=
  {| KDTree := list (Q * Q);
     cKDTree := mapM finite_point;
     query := scan_query |}.

(** A square root to nine decimal places, rounded down. *)
Definition sqrt (q : Q) : Q :=
  Qred (Z.sqrt (Qfloor (q * inject_Z (10 ^ 18))) # 10 ^ 9).
End Fixture.

(** ** Small stores, frames and states, to run the examples *)
Module Examples.
(** One site, one hour, raw value 500, scale factor 100. *)
Definition ds500 : Dataset :=
  {| ntime := 1; nsites := 1;
     raw := fun _ _ => of_Z 500;
     attrs := {[ "scale_factor" := of_Z 100 ]} |}.

Definition store500 : gmap string Dataset := {[ "windspeed_100m" := ds500 ]}.

(** One site, three hours with raw values 500, 0 and -500, and a scale
    factor of zero. *)
Definition ds_zero_scale : Dataset :=
  {| ntime := 3; nsites := 1;
     raw := fun t _ => match t with
                       | O => of_Z 500
                       | S O => of_Z 0
                       | _ => of_Z (-500)
                       end;
     attrs := {[ "scale_factor" := of_Z 0 ]} |}.

Definition store_zero_scale : gmap string Dataset :=
  {[ "windspeed_100m" := ds_zero_scale ]}.

Definition at_hour (h : Z) (w a : float) : Row :=
  {| year := Some 2012; month := Some 1; day := Some 1; hour := Some h;
     latitude := of_Z 34; longitude := of_Z (-119);
     windspeed := w; avg_windspeed := a |}.

(** Two hours of 1 January 2012, wind speeds 1 and 3, mean 2. *)
Definition two_hours : list Row :=
  [ at_hour 0 (of_Z 1) (of_Z 2); at_hour 1 (of_Z 3) (of_Z 2) ].

Definition with_frame (d : DataFrame) : State :=
  {| heap := {[ 0%nat := d ]}; stdout := [] |}.

(** The sites and the points of interest of the examples. *)
Definition coords : list (float * float) :=
  [ (of_Z 34, of_Z (-119)); (of_Z 40, of_Z (-105)) ].

Definition points : DataFrame :=
  Frame [LStr "latitude"; LStr "longitude"]
        [ [of_Z 39; of_Z (-104)]; [of_Z 35; of_Z (-120)] ].

Definition sigma0 : State := {| heap := {[ 0%nat := points ]}; stdout := [] |}.

Definition empty_state : State := {| heap := ∅; stdout := [] |}.

(** The first two hours of 2012 and the one site of the examples. *)
Definition time_two : list Timestamp :=
  [ {| ts_year := 2012; ts_month := 1; ts_day := 1; ts_hour := 0 |};
    {| ts_year := 2012; ts_month := 1; ts_day := 1; ts_hour := 1 |} ].

Definition coords_df : list (float * float) := [ (of_Z 34, of_Z (-119)) ].

(** The global series (wind speeds 1 and 3) and another series, passed
    as the argument [windspeed] (10 and 20). *)
Definition windspeed_100 : list float := [of_Z 1; of_Z 3].
Definition windspeed_10 : list float := [of_Z 10; of_Z 20].

(** One hour whose wind speed is missing: the series mean is missing
    too. *)
Definition missing_hour : list Row := [ at_hour 0 NaN NaN ].

End Examples.

(** ** The other cells of the notebooks *)

(** [s.max()] and [s.min()] of a column: missing values are skipped, and
    the result is missing when nothing is left. *)
Definition fmax (x y : float) : float := if fleb x y then y else x.
Definition fmin (x y : float) : float := if fleb x y then x else y.

Definition series_max (s : list float) : float :=
  match dropna s with
  | [] => NaN
  | x :: v => fold_left fmax v x
  end.

Definition series_min (s : list float) : float :=
  match dropna s with
  | [] => NaN
  | x :: v => fold_left fmin v x
  end.

(** The bounding limits of the sites: [lat_max], [lat_min], [long_max]
    and [long_min] of the last code cell. *)
Record Limits := {
  lat_max : float;
  lat_min : float;
  long_max : float;
  long_min : float
}.

Definition bounding_limits (coords_df : list (float * float)) : Limits :=
  {| lat_max := series_max (coords_df.*1);
     lat_min := series_min (coords_df.*1);
     long_max := series_max (coords_df.*2);
     long_min := series_min (coords_df.*2) |}.

(** [df.head()]: the first five rows, in a new frame. *)
Definition head (df : loc) : M loc :=
  d ← deref df;
  alloc match d with
        | Frame columns rows => Frame columns (take 5 rows)
        | Decorated rows => Decorated (take 5 rows)
        | HourTable rows => HourTable (take 5 rows)
        | DayTable rows date => DayTable (take 5 rows) (take 5 <$> date)
        | MonthTable rows => MonthTable (take 5 rows)
        end.

(** [df[df['month'] == m]]: the rows whose month is [m], in a new frame.
    A missing month equals nothing. *)
Definition select_month (df : loc) (m : Z) : M loc :=
  d ← deref df;
  match d with
  | Frame columns rows =>
      match position (LStr "month") columns with
      | Some j =>
          alloc (Frame columns
                   (List.filter (fun row => feqb (default NaN (row !! j)) (of_Z m)) rows))
      | None => raise KeyError
      end
  | Decorated rows => alloc (Decorated (List.filter (in_month m) rows))
  | HourTable rows => alloc (HourTable (List.filter (fun r => hr_month r =? m) rows))
  | DayTable rows date =>
      alloc (DayTable (List.filter (fun r => dy_month r =? m) rows)
               ((fun ds => (List.filter (fun rd => dy_month rd.1 =? m) (combine rows ds)).*2)
                  <$> date))
  | MonthTable rows => alloc (MonthTable (List.filter (fun r => mo_month r =? m) rows))
  end.

(** The names the notebook binds along its one run. *)
Record Notebook := {
  nb_POI_indx : nat;
  nb_windspeed_100 : list float;
  nb_df_100m : loc;
  nb_day_var : loc;
  nb_monthly_var : loc;
  nb_hourly_var : loc;
  nb_july_var : loc;
  nb_march_var : loc
}.

Section Cells.
Context `{KDTreeLib}.
Variable np_sqrt : Q -> Q.

(** The code cells of [geospatial_task.ipynb] that call the five
    functions, in their order; [coords_df] holds the rows of [coords].
    The cells that read the store into [time_df], [meta], [coords] and
    [coords_df] come before and are the arguments here; the one-column
    frame of [h5_extractor] is a value, not an object on the heap; the
    plots and the displayed [.head()] values are left out. *)
Definition notebook (raw_h5 : gmap string Dataset) (time_df : list Timestamp)
    (coords : list (float * float)) (POI : float * float) : M Notebook :=
  let coords_df := coords in
  (* POI_indx = nearest_site(coord_array = coords, lat_coord = POI[0], lon_coord = POI[1]) *)
  POI_indx ← lift (nearest_site coords POI.1 POI.2);
  (* windspeed_100 = h5_extractor(raw_h5, 'windspeed_100m', POI_indx) *)
  windspeed_100 ← lift (h5_extractor raw_h5 "windspeed_100m" POI_indx);
  (* df_100m = windspeed_point_df_maker(time_df, coords_df, windspeed_100, POI_indx) *)
  df_100m ← windspeed_point_df_maker windspeed_100 time_df coords_df windspeed_100 POI_indx;
  (* day_var = time_subset(period = 'day', df = df_100m) *)
  day_var ← time_subset np_sqrt "day" df_100m;
  (* monthly_var = time_subset(period = 'month', df = df_100m) *)
  monthly_var ← time_subset np_sqrt "month" df_100m;
  (* hourly_var = time_subset(period = 'hour', df = df_100m) *)
  hourly_var ← time_subset np_sqrt "hour" df_100m;
  (* july_var = hourly_var[hourly_var['month'] == 7] *)
  july_var ← select_month hourly_var 7;
  (* march_var = hourly_var[hourly_var['month'] == 3] *)
  march_var ← select_month hourly_var 3;
  mret {| nb_POI_indx := POI_indx; nb_windspeed_100 := windspeed_100;
          nb_df_100m := df_100m; nb_day_var := day_var;
          nb_monthly_var := monthly_var; nb_hourly_var := hourly_var;
          nb_july_var := july_var; nb_march_var := march_var |}.

(** The test cell of [archive/tech_task.qmd]:
    [POI_df_test = coords_df.head()] and
    [POI_multi = multiple_site_index(POI_df = POI_df_test, coord_array = coords)]. *)
Definition archive_test_cell (coords_df : loc) (coords : list (float * float))
    : M (loc * list nat) :=
  POI_df_test ← head coords_df;
  POI_multi ← Archive.multiple_site_index POI_df_test coords;
  mret (POI_df_test, POI_multi).
End Cells.

(** [len(df)] *)
Definition frame_length (d : DataFrame) : nat :=
  match d with
  | Frame _ rows => length rows
  | Decorated rows => length rows
  | HourTable rows => length rows
  | DayTable rows _ => length rows
  | MonthTable rows => length rows
  end.

(** The rows [time_subset] groups for a period: those whose key cells
    are all present. *)
Definition present (x : option Z) : bool :=
  match x with Some _ => true | None => false end.

Definition keyed (period : string) (r : Row) : bool :=
  if String.eqb period "hour" then
    present (year r) && present (month r) && present (hour r)
    && negb (np_isnan (avg_windspeed r))
  else if String.eqb period "day" then
    present (year r) && present (month r) && present (day r)
    && negb (np_isnan (avg_windspeed r))
  else if String.eqb period "month" then
    present (month r) && negb (np_isnan (avg_windspeed r))
  else false.

(** The key cells of the rows of the three tables. *)
Definition hour_key (t : HourRow) : Z * Z * Z * float :=
  (hr_year t, hr_month t, hr_hour t, hr_avg_windspeed t).

Definition day_key (t : DayRow) : Z * Z * Z * float :=
  (dy_year t, dy_month t, dy_day t, dy_avg_windspeed t).

Definition month_key (t : MonthRow) : Z * float :=
  (mo_month t, mo_avg_windspeed t).

(** Strictly ascending keys: in order, and not equal. *)
Definition key4_lt (a b : Z * Z * Z * float) : Prop :=
  lex_leb ymx_eqb ymx_leb fleb a b = true /\ pair_eqb ymx_eqb feqb a b = false.

Definition key2_lt (a b : Z * float) : Prop :=
  lex_leb Z.eqb Z.leb fleb a b = true /\ pair_eqb Z.eqb feqb a b = false.

(** The group-mean column of a table: [hour_avg_windspeed],
    [daily_avg_windspeed] or [month_avg_windspeed]. *)
Definition group_means (d : DataFrame) : list float :=
  match d with
  | HourTable t => List.map hour_avg_windspeed t
  | DayTable t _ => List.map daily_avg_windspeed t
  | MonthTable t => List.map month_avg_windspeed t
  | _ => []
  end.

(** The date that the cells of a row of the daily table spell. *)
Definition day_row_date (t : DayRow) : Date :=
  {| d_year := dy_year t; d_month := dy_month t; d_day := dy_day t |}.



(** A run from [σ] to [σ'] that keeps every frame of [σ] as it is, adds
    frames at addresses that were not in use, and prints nothing. *)
Definition extends (σ σ' : State) : Prop :=
  heap σ ⊆ heap σ' /\ stdout σ' = stdout σ.







(** Zero and infinite cells. *)
Definition is_zero (x : float) : bool :=
  match x with
  | Fin q => Qeq_bool q 0
  | _ => false
  end.

Definition is_inf (x : float) : bool :=
  match x with
  | PInf | NInf => true
  | _ => false
  end.

(** Unfolding one run of the state monad. *)
Ltac run_M :=
  cbv [mbind M_bind mret M_ret lift raise deref alloc store print point_rows];
  cbn [heap stdout fst snd].

(** * Properties *)

(** ** Running the monads *)

Lemma getitem_Some {K V : Type} `{Countable K} (d : gmap K V) (k : K) (v : V) :
  d !! k = Some v -> getitem d k = Ok v.
Proof. intros E. unfold getitem. by rewrite E. Qed.

Lemma slice_column_in_range (ds : Dataset) (i : nat) :
  (i < nsites ds)%nat ->
  slice_column ds i = Ok (List.map (fun t => raw ds t i) (seq 0 (ntime ds))).
Proof.
  intros Hi. unfold slice_column.
  destruct (Nat.ltb_spec i (nsites ds)); [done | lia].
Qed.

(** What [h5_extractor] returns when the variable is stored, the site is
    in range and the data set has a scale factor: the column divided by
    it, whatever the scale factor is. *)
Lemma h5_extractor_divides (raw_h5 : gmap string Dataset) (variable : string)
    (POI_indx : nat) (ds : Dataset) (scale_factor : float) :
  raw_h5 !! variable = Some ds ->
  (POI_indx < nsites ds)%nat ->
  attrs ds !! "scale_factor" = Some scale_factor ->
  h5_extractor raw_h5 variable POI_indx =
    Ok (List.map (fun t => fdiv (raw ds t POI_indx) scale_factor) (seq 0 (ntime ds))).
Proof.
  intros Hv Hi Hs. unfold h5_extractor.
  rewrite (getitem_Some _ _ _ Hv). cbn.
  rewrite (slice_column_in_range _ _ Hi). cbn.
  rewrite (getitem_Some _ _ _ Hs). cbn.
  by rewrite List.map_map.
Qed.

Lemma Qeq_bool_false (a b : Q) : ~ (a == b)%Q -> Qeq_bool a b = false.
Proof.
  intros Hne. destruct (Qeq_bool a b) eqn:E; [|done].
  apply Qeq_bool_eq in E. contradiction.
Qed.

Lemma fdiv_finite (r s : Q) :
  ~ (s == 0)%Q -> exists q, fdiv (Fin r) (Fin s) = Fin q /\ (q == r / s)%Q.
Proof.
  intros Hs. exists (Qred (r / s)). split.
  - cbn. by rewrite (Qeq_bool_false _ _ Hs).
  - apply Qred_correct.
Qed.

Lemma fdiv_zero (x : float) (s : Q) :
  (s == 0)%Q -> np_isfinite (fdiv x (Fin s)) = false.
Proof.
  intros Hs. destruct x as [a| | |]; cbn; try done.
  - rewrite (Qeq_eq_bool _ _ Hs). by destruct (a ?= 0)%Q.
  - by destruct (Qle_bool 0 s).
  - by destruct (Qle_bool 0 s).
Qed.

(** ** The nearest site *)

(** [nearest_site] reports the position that the one-neighbour query of
    the tree built from the whole array reports for the point, and
    nothing else: it has no distance computation and no rule for equal
    distances of its own. *)
Lemma nearest_site_query `{KDTreeLib} (coord_array : list (float * float))
    (lat_coord lon_coord : float) (pos : nat) :
  nearest_site coord_array lat_coord lon_coord = Ok pos
  <-> exists tree dist,
        cKDTree coord_array = Ok tree
        /\ query tree (lat_coord, lon_coord) = Ok (dist, pos).
Proof.
  unfold nearest_site. split.
  - destruct (cKDTree coord_array) as [tree|]; [|done]. cbn.
    destruct (query tree (lat_coord, lon_coord)) as [[dist pos']|] eqn:Hq; [|done].
    cbn. intros [= ->]. by exists tree, dist.
  - intros (tree & dist & -> & Hq). cbn. by rewrite Hq.
Qed.

(** ** The series extractor *)

(** C5: for a stored variable, an in-range site index and a nonzero scale
    factor, [h5_extractor] returns the raw column of that site divided
    elementwise by the scale factor: one value per time step, and with a
    finite scale factor [s] a raw value [r] decodes to the rational
    [r / s]. *)
Theorem h5_extractor_decodes (raw_h5 : gmap string Dataset) (variable : string)
    (POI_indx : nat) (ds : Dataset) (scale_factor : float) :
  raw_h5 !! variable = Some ds ->
  (POI_indx < nsites ds)%nat ->
  attrs ds !! "scale_factor" = Some scale_factor ->
  feqb scale_factor (Fin 0) = false ->
  exists out,
    h5_extractor raw_h5 variable POI_indx = Ok out /\
    length out = ntime ds /\
    forall t, (t < ntime ds)%nat ->
      out !! t = Some (fdiv (raw ds t POI_indx) scale_factor) /\
      forall r s, raw ds t POI_indx = Fin r -> scale_factor = Fin s ->
        exists q, out !! t = Some (Fin q) /\ (q == r / s)%Q.
Proof.
  intros Hv Hi Hs Hnz. eexists. split; [|split].
  - by apply h5_extractor_divides.
  - by rewrite length_map, length_seq.
  - intros t Ht.
    assert (Hl : List.map (fun t => fdiv (raw ds t POI_indx) scale_factor)
                   (seq 0 (ntime ds)) !! t
                 = Some (fdiv (raw ds t POI_indx) scale_factor)).
    { rewrite list_lookup_fmap. by rewrite lookup_seq_lt. }
    split; [done|]. intros r s Hr ->.
    assert (Hs0 : ~ (s == 0)%Q).
    { intros E. cbn in Hnz. by rewrite (Qeq_eq_bool _ _ E) in Hnz. }
    destruct (fdiv_finite r s Hs0) as (q & Hq & Hq').
    exists q. split; [|done]. by rewrite Hl, Hr, Hq.
Qed.

(** The scenario of C5: raw value 500 with scale factor 100 decodes to 5. *)
Lemma h5_extractor_decodes_witness :
  h5_extractor Examples.store500 "windspeed_100m" 0 = Ok [Fin 5].
Proof.
  destruct (h5_extractor_decodes Examples.store500 "windspeed_100m" 0
              Examples.ds500 (of_Z 100)) as (out & -> & Hlen & Hout).
  - reflexivity.
  - simpl. lia.
  - reflexivity.
  - reflexivity.
  - destruct (Hout 0%nat) as [H0 _]; [simpl; lia|].
    destruct out as [|x [|y out]]; try discriminate.
    simpl in H0. injection H0 as ->. reflexivity.
Defined.

(** C6, as the code behaves: with a scale factor of zero [h5_extractor]
    raises nothing; it returns one value per time step, none of them
    finite. *)
Theorem h5_extractor_zero_scale (raw_h5 : gmap string Dataset) (variable : string)
    (POI_indx : nat) (ds : Dataset) (s : Q) :
  raw_h5 !! variable = Some ds ->
  (POI_indx < nsites ds)%nat ->
  attrs ds !! "scale_factor" = Some (Fin s) ->
  (s == 0)%Q ->
  exists out,
    h5_extractor raw_h5 variable POI_indx = Ok out /\
    length out = ntime ds /\
    Forall (fun x => np_isfinite x = false) out.
Proof.
  intros Hv Hi Hs Hz. eexists. split; [|split].
  - by apply h5_extractor_divides.
  - by rewrite length_map, length_seq.
  - apply List.Forall_map, Forall_forall. intros t _. by apply fdiv_zero.
Qed.

Lemma h5_extractor_zero_scale_witness :
  exists out,
    h5_extractor Examples.store_zero_scale "windspeed_100m" 0 = Ok out /\
    length out = 3%nat /\
    Forall (fun x => np_isfinite x = false) out.
Proof.
  apply (h5_extractor_zero_scale Examples.store_zero_scale "windspeed_100m" 0
           Examples.ds_zero_scale 0).
  - reflexivity.
  - simpl. lia.
  - reflexivity.
  - reflexivity.
Defined.

(** C6 fails as stated: on a scale factor of zero the extractor returns a
    series and raises no error. *)
Lemma h5_extractor_zero_scale_returns :
  h5_extractor Examples.store_zero_scale "windspeed_100m" 0 = Ok [PInf; NaN; NInf]
  /\ ~ exists e, h5_extractor Examples.store_zero_scale "windspeed_100m" 0 = Raise e.
Proof.
  assert (E : h5_extractor Examples.store_zero_scale "windspeed_100m" 0
              = Ok [PInf; NaN; NInf]) by reflexivity.
  split; [exact E|]. intros [e He]. rewrite E in He. discriminate.
Qed.

(** ** The aggregator: control flow and effects *)

Lemma time_subset_hour (np_sqrt : Q -> Q) (df : loc) (σ : State) (rows : list Row) :
  heap σ !! df = Some (Decorated rows) ->
  time_subset np_sqrt "hour" df σ
  = alloc (HourTable (List.map (agg_hour np_sqrt) (groupby_hour rows))) σ.
Proof.
  intros Hdf. unfold time_subset. cbn [String.eqb Ascii.eqb Bool.eqb].
  run_M. by rewrite Hdf.
Qed.

Lemma time_subset_month (np_sqrt : Q -> Q) (df : loc) (σ : State) (rows : list Row) :
  heap σ !! df = Some (Decorated rows) ->
  time_subset np_sqrt "month" df σ
  = alloc (MonthTable (List.map (agg_month np_sqrt) (groupby_month rows))) σ.
Proof.
  intros Hdf. unfold time_subset. cbn [String.eqb Ascii.eqb Bool.eqb].
  run_M. by rewrite Hdf.
Qed.

Lemma time_subset_day (np_sqrt : Q -> Q) (df : loc) (σ : State) (rows : list Row) :
  heap σ !! df = Some (Decorated rows) ->
  let table := List.map (agg_day np_sqrt) (groupby_day rows) in
  let l := fresh (dom (heap σ)) in
  time_subset np_sqrt "day" df σ
  = match mapM (fun r => to_datetime (dy_year r) (dy_month r) (dy_day r)) table with
    | Ok date =>
        ({| heap := <[l := DayTable table (Some date)]> (heap σ); stdout := stdout σ |},
         Ok l)
    | Raise e =>
        ({| heap := <[l := DayTable table None]> (heap σ); stdout := stdout σ |},
         Raise e)
    end.
Proof.
  intros Hdf table l. unfold time_subset. cbn [String.eqb Ascii.eqb Bool.eqb].
  run_M. rewrite Hdf. fold table. fold l.
  destruct (mapM _ table) as [date|e]; [|done].
  by rewrite insert_insert_eq.
Qed.

Lemma time_subset_fallthrough (np_sqrt : Q -> Q) (period : string)
    (df : loc) (σ : State) :
  String.eqb period "hour" = false ->
  String.eqb period "day" = false ->
  String.eqb period "month" = false ->
  time_subset np_sqrt period df σ
  = ({| heap := heap σ;
        stdout := stdout σ ++ ["Period must be desginated as either hour, day, or month"] |},
     Ok df).
Proof. intros Hh Hd Hm. unfold time_subset. by rewrite Hh, Hd, Hm. Qed.

(** C2, as the code behaves: for a period other than hour, day and month
    [time_subset] raises nothing; it prints the message that names the
    three periods and returns its argument, the very frame it was given,
    with the heap as it was. *)
Theorem time_subset_other_period (np_sqrt : Q -> Q) (period : string)
    (df : loc) (σ : State) :
  period <> "hour" -> period <> "day" -> period <> "month" ->
  time_subset np_sqrt period df σ
  = ({| heap := heap σ; stdout := stdout σ ++ ["Period must be desginated as either hour, day, or month"] |}, Ok df).
Proof.
  intros Hh Hd Hm. apply time_subset_fallthrough; by apply String.eqb_neq.
Qed.

Lemma time_subset_other_period_witness :
  time_subset Fixture.sqrt "week" 0%nat
    (Examples.with_frame (Decorated Examples.two_hours))
  = ({| heap := {[ 0%nat := Decorated Examples.two_hours ]};
        stdout := ["Period must be desginated as either hour, day, or month"] |}, Ok 0%nat).
Proof.
  apply (time_subset_other_period Fixture.sqrt "week" 0%nat
           (Examples.with_frame (Decorated Examples.two_hours)));
    discriminate.
Defined.

(** C2 fails as stated: for the period "week" no error is raised, and the
    frame that comes back is the unaggregated input. *)
Lemma time_subset_week_returns_input :
  (time_subset Fixture.sqrt "week" 0%nat
     (Examples.with_frame (Decorated Examples.two_hours))).2 = Ok 0%nat
  /\ heap (time_subset Fixture.sqrt "week" 0%nat
             (Examples.with_frame (Decorated Examples.two_hours))).1 !! 0%nat
     = Some (Decorated Examples.two_hours)
  /\ ~ exists e,
       (time_subset Fixture.sqrt "week" 0%nat
          (Examples.with_frame (Decorated Examples.two_hours))).2 = Raise e.
Proof.
  split; [reflexivity|]. split; [reflexivity|].
  intros [e He]. discriminate He.
Qed.

(** [time_subset] writes to no address that was allocated before the
    call. *)
Lemma time_subset_frame (np_sqrt : Q -> Q) (period : string) (df : loc)
    (σ : State) (l : loc) :
  l ∈ dom (heap σ) ->
  heap (time_subset np_sqrt period df σ).1 !! l = heap σ !! l.
Proof.
  intros Hl.
  assert (Hfresh : fresh (dom (heap σ)) <> l).
  { intros <-. by apply (is_fresh (dom (heap σ))). }
  destruct (heap σ !! df) as [d|] eqn:Hdf.
  - destruct (String.eqb_spec period "hour") as [->|Hh];
      [|destruct (String.eqb_spec period "day") as [->|Hd];
        [|destruct (String.eqb_spec period "month") as [->|Hm]]].
    + destruct d; try (unfold time_subset; cbn [String.eqb Ascii.eqb Bool.eqb];
                       run_M; by rewrite Hdf).
      rewrite (time_subset_hour _ _ _ _ Hdf). cbn. by rewrite lookup_insert_ne.
    + destruct d; try (unfold time_subset; cbn [String.eqb Ascii.eqb Bool.eqb];
                       run_M; by rewrite Hdf).
      rewrite (time_subset_day _ _ _ _ Hdf).
      destruct (mapM _ _); cbn; by rewrite lookup_insert_ne.
    + destruct d; try (unfold time_subset; cbn [String.eqb Ascii.eqb Bool.eqb];
                       run_M; by rewrite Hdf).
      rewrite (time_subset_month _ _ _ _ Hdf). cbn. by rewrite lookup_insert_ne.
    + rewrite time_subset_fallthrough; [done|by apply String.eqb_neq..].
  - destruct (String.eqb_spec period "hour") as [->|Hh];
      [|destruct (String.eqb_spec period "day") as [->|Hd];
        [|destruct (String.eqb_spec period "month") as [->|Hm]]];
      try (unfold time_subset; cbn [String.eqb Ascii.eqb Bool.eqb];
           run_M; by rewrite Hdf).
    rewrite time_subset_fallthrough; [done|by apply String.eqb_neq..].
Qed.

(** ** The multi-point driver *)

Lemma set_columns_points (POI_df : loc) (σ : State) (cols : list label)
    (rows : list (list float)) :
  heap σ !! POI_df = Some (Frame cols rows) ->
  length cols = 2%nat ->
  set_columns POI_df [LStr "lat"; LStr "lon"] σ
  = ({| heap := <[POI_df := Frame [LStr "lat"; LStr "lon"] rows]> (heap σ);
        stdout := stdout σ |}, Ok tt).
Proof.
  intros Hdf Hlen. unfold set_columns. run_M. rewrite Hdf, Hlen. reflexivity.
Qed.

Lemma set_columns_mismatch (POI_df : loc) (σ : State) (cols : list label)
    (rows : list (list float)) :
  heap σ !! POI_df = Some (Frame cols rows) ->
  length cols <> 2%nat ->
  set_columns POI_df [LStr "lat"; LStr "lon"] σ = (σ, Raise ValueError).
Proof.
  intros Hdf Hlen. unfold set_columns. run_M. rewrite Hdf.
  destruct (Nat.eqb_spec (length cols) (length [LStr "lat"; LStr "lon"]));
    [done | reflexivity].
Qed.

Lemma getcolumn_lat (POI_df : loc) (σ : State) (rows : list (list float)) (ind : nat) :
  heap σ !! POI_df = Some (Frame [LStr "lat"; LStr "lon"] rows) ->
  (getcolumn POI_df (LStr "lat") ≫= (fun s => at_label s ind)) σ
  = (σ, match rows !! ind with
        | Some row => Ok (row_lat row)
        | None => Raise KeyError
        end).
Proof.
  intros Hdf. unfold getcolumn, at_label. run_M. rewrite Hdf. cbn.
  rewrite list_lookup_fmap. by destruct (rows !! ind).
Qed.

Lemma getcolumn_lon (POI_df : loc) (σ : State) (rows : list (list float)) (ind : nat) :
  heap σ !! POI_df = Some (Frame [LStr "lat"; LStr "lon"] rows) ->
  (getcolumn POI_df (LStr "lon") ≫= (fun s => at_label s ind)) σ
  = (σ, match rows !! ind with
        | Some row => Ok (row_lon row)
        | None => Raise KeyError
        end).
Proof.
  intros Hdf. unfold getcolumn, at_label. run_M. rewrite Hdf. cbn.
  rewrite list_lookup_fmap. by destruct (rows !! ind).
Qed.

Lemma bind_run {A B : Type} (m : M A) (f : A -> M B) (σ : State) :
  (m ≫= f) σ
  = match m σ with
    | (σ', Ok a) => f a σ'
    | (σ', Raise e) => (σ', Raise e)
    end.
Proof. reflexivity. Qed.

Lemma getcolumn_results (results : loc) (σ : State) (c : label) :
  heap σ !! results = Some (Frame [] []) ->
  getcolumn results c σ = (σ, Raise KeyError).
Proof. intros Hr. unfold getcolumn. run_M. by rewrite Hr. Qed.

(** One turn of the loop of the notebook's [multiple_site_index]: the
    state is left as it is and an exception is raised, [KeyError] when
    the nearest site was found. *)
Lemma loop_body_raises `{KDTreeLib} (POI_df results : loc)
    (coord_array : list (float * float)) (σ : State)
    (rows : list (list float)) (ind : nat) :
  heap σ !! POI_df = Some (Frame [LStr "lat"; LStr "lon"] rows) ->
  heap σ !! results = Some (Frame [] []) ->
  (lat ← getcolumn POI_df (LStr "lat") ≫= (fun s => at_label s ind);
   lon ← getcolumn POI_df (LStr "lon") ≫= (fun s => at_label s ind);
   POI_indx ← lift (nearest_site coord_array lat lon);
   _ ← getcolumn results (LInt (Z.of_nat ind));
   raise (A:=unit) TypeError) σ
  = (σ, Raise match rows !! ind with
              | None => KeyError
              | Some row =>
                  match nearest_site coord_array (row_lat row) (row_lon row) with
                  | Ok _ => KeyError
                  | Raise e => e
                  end
              end).
Proof.
  intros Hdf Hres.
  rewrite bind_run, (getcolumn_lat _ _ _ _ Hdf).
  destruct (rows !! ind) as [row|] eqn:Hrow; [|done].
  rewrite bind_run, (getcolumn_lon _ _ _ _ Hdf), Hrow.
  rewrite bind_run. unfold lift at 1.
  destruct (nearest_site coord_array (row_lat row) (row_lon row)) as [i|e] eqn:Hn; [|done].
  by rewrite bind_run, (getcolumn_results _ _ _ Hres).
Qed.

(** The state in which the loop of [multiple_site_index] runs: the points
    frame relabelled, and the empty [results] at a fresh address. *)
Lemma multiple_site_index_run `{KDTreeLib} (POI_df : loc)
    (coord_array : list (float * float)) (σ : State)
    (cols : list label) (rows : list (list float)) :
  heap σ !! POI_df = Some (Frame cols rows) ->
  length cols = 2%nat ->
  let results := fresh (dom (<[POI_df := Frame [LStr "lat"; LStr "lon"] rows]> (heap σ))) in
  let σ' := {| heap := <[results := Frame [] []]>
                         (<[POI_df := Frame [LStr "lat"; LStr "lon"] rows]> (heap σ));
               stdout := stdout σ |} in
  heap σ' !! POI_df = Some (Frame [LStr "lat"; LStr "lon"] rows)
  /\ heap σ' !! results = Some (Frame [] [])
  /\ ((multiple_site_index POI_df coord_array σ).1 = σ')
  /\ (rows = [] -> (multiple_site_index POI_df coord_array σ).2 = Ok results)
  /\ (forall row rows', rows = row :: rows' ->
        exists e, (multiple_site_index POI_df coord_array σ).2 = Raise e
          /\ forall i, nearest_site coord_array (row_lat row) (row_lon row) = Ok i ->
                       e = KeyError).
Proof.
  intros Hdf Hlen results σ'.
  assert (Hne : results <> POI_df).
  { intros E. apply (is_fresh (dom (<[POI_df := Frame [LStr "lat"; LStr "lon"] rows]> (heap σ)))).
    fold results. rewrite E. apply elem_of_dom. rewrite lookup_insert_eq. eauto. }
  assert (H1 : heap σ' !! POI_df = Some (Frame [LStr "lat"; LStr "lon"] rows)).
  { cbn. rewrite lookup_insert_ne by done. by rewrite lookup_insert_eq. }
  assert (H2 : heap σ' !! results = Some (Frame [] [])).
  { cbn. by rewrite lookup_insert_eq. }
  split; [done|]. split; [done|].
  assert (Hrun : multiple_site_index POI_df coord_array σ
    = (for_each (seq 0 (length rows)) (fun ind =>
         lat ← getcolumn POI_df (LStr "lat") ≫= (fun s => at_label s ind);
         lon ← getcolumn POI_df (LStr "lon") ≫= (fun s => at_label s ind);
         POI_indx ← lift (nearest_site coord_array lat lon);
         _ ← getcolumn results (LInt (Z.of_nat ind));
         raise (A:=unit) TypeError);; mret results) σ').
  { unfold multiple_site_index.
    rewrite bind_run, (set_columns_points _ _ _ _ Hdf Hlen).
    rewrite bind_run. unfold alloc at 1. cbn [heap stdout]. fold results. fold σ'.
    rewrite bind_run. unfold frame_index at 1.
    rewrite bind_run. unfold deref at 1. rewrite H1. reflexivity. }
  rewrite Hrun. destruct rows as [|row rows'].
  - split; [done|]. split; [done|]. by intros ? ? [=].
  - cbn [length seq for_each]. rewrite bind_run, bind_run.
    rewrite (loop_body_raises POI_df results coord_array σ' (row :: rows') 0 H1 H2).
    split; [done|]. split; [by intros [=]|].
    intros ? ? [= <- <-]. eexists. split; [done|]. intros i Hi. cbn.
    by rewrite Hi.
Qed.

Lemma multiple_site_index_frame `{KDTreeLib} (POI_df : loc)
    (coord_array : list (float * float)) (σ : State) (l : loc) :
  l ∈ dom (heap σ) -> l <> POI_df ->
  heap (multiple_site_index POI_df coord_array σ).1 !! l = heap σ !! l.
Proof.
  intros Hl Hne.
  destruct (heap σ !! POI_df) as [d|] eqn:Hdf.
  - destruct d as [cols rows| | | |];
      try (unfold multiple_site_index, set_columns; rewrite !bind_run;
           unfold deref; by rewrite Hdf).
    destruct (decide (length cols = 2%nat)) as [Hlen|Hlen].
    + destruct (multiple_site_index_run POI_df coord_array σ cols rows Hdf Hlen)
        as (_ & _ & -> & _).
      cbn. rewrite !lookup_insert_ne; [done|done|].
      intros E.
      apply (is_fresh (dom (<[POI_df:=Frame [LStr "lat"; LStr "lon"] rows]> (heap σ)))).
      rewrite E, dom_insert_L. set_solver.
    + unfold multiple_site_index.
      by rewrite bind_run, (set_columns_mismatch _ _ _ _ Hdf Hlen).
  - unfold multiple_site_index, set_columns. rewrite !bind_run.
    unfold deref. by rewrite Hdf.
Qed.

(** The archived draft returns the nearest site of every point, in the
    order of the points. *)
Lemma archive_loop `{KDTreeLib} (POI_df : loc) (coord_array : list (float * float))
    (σ : State) (rows : list (list float)) :
  heap σ !! POI_df = Some (Frame [LStr "lat"; LStr "lon"] rows) ->
  forall (n k : nat) (acc : list nat),
    (k + n = length rows)%nat ->
    Archive.loop POI_df coord_array (seq k n) acc σ
    = (σ, match mapM (fun row => nearest_site coord_array (row_lat row) (row_lon row))
                  (drop k rows) with
          | Ok sites => Ok (acc ++ sites)
          | Raise e => Raise e
          end).
Proof.
  intros Hdf. induction n as [|n IH]; intros k acc Hk.
  - rewrite drop_ge by lia. cbn. by rewrite app_nil_r.
  - destruct (lookup_lt_is_Some_2 rows k) as [row Hrow]; [lia|].
    rewrite (drop_S _ _ _ Hrow). cbn [seq Archive.loop mapM].
    rewrite bind_run, (getcolumn_lat _ _ _ _ Hdf), Hrow.
    rewrite bind_run, (getcolumn_lon _ _ _ _ Hdf), Hrow.
    rewrite bind_run. unfold lift at 1.
    destruct (nearest_site coord_array (row_lat row) (row_lon row)) as [i|e]; [|done].
    rewrite IH by lia. cbn.
    destruct (mapM _ (drop (S k) rows)) as [sites|e]; [|done].
    cbn. by rewrite <- app_assoc.
Qed.

Lemma archive_multiple_site_index `{KDTreeLib} (POI_df : loc)
    (coord_array : list (float * float)) (σ : State)
    (cols : list label) (rows : list (list float)) :
  heap σ !! POI_df = Some (Frame cols rows) ->
  length cols = 2%nat ->
  Archive.multiple_site_index POI_df coord_array σ
  = ({| heap := <[POI_df := Frame [LStr "lat"; LStr "lon"] rows]> (heap σ);
        stdout := stdout σ |},
     mapM (fun row => nearest_site coord_array (row_lat row) (row_lon row)) rows).
Proof.
  intros Hdf Hlen. unfold Archive.multiple_site_index.
  rewrite bind_run, (set_columns_points _ _ _ _ Hdf Hlen).
  rewrite bind_run. unfold frame_index at 1. rewrite bind_run.
  unfold deref at 1. cbn [heap]. rewrite lookup_insert_eq.
  unfold mret at 1, M_ret at 1.
  rewrite (archive_loop POI_df coord_array _ rows); [|by cbn; rewrite lookup_insert_eq|done].
  rewrite drop_0. by destruct (mapM _ rows).
Qed.

Lemma mapM_Ok_Forall2 {A B : Type} (f : A -> result B) (l : list A) (ys : list B) :
  mapM f l = Ok ys -> Forall2 (fun x y => f x = Ok y) l ys.
Proof.
  revert ys. induction l as [|x l IH]; intros ys; cbn.
  - intros [= <-]. constructor.
  - destruct (f x) as [y|] eqn:Hy; [|done]. cbn.
    destruct (mapM f l) as [ys'|]; [|done]. cbn.
    intros [= <-]. constructor; [done | by apply IH].
Qed.

(** When the archived draft returns, it returns one site index per point,
    in the order of the points, each the nearest site of its point. *)
Lemma archive_multiple_site_index_pointwise `{KDTreeLib} (POI_df : loc)
    (coord_array : list (float * float)) (σ σ' : State)
    (cols : list label) (rows : list (list float)) (sites : list nat) :
  heap σ !! POI_df = Some (Frame cols rows) ->
  length cols = 2%nat ->
  Archive.multiple_site_index POI_df coord_array σ = (σ', Ok sites) ->
  length sites = length rows
  /\ forall i row, rows !! i = Some row ->
       exists site, sites !! i = Some site
         /\ nearest_site coord_array (row_lat row) (row_lon row) = Ok site.
Proof.
  intros Hdf Hlen. rewrite (archive_multiple_site_index _ _ _ _ _ Hdf Hlen).
  intros [= _ Hsites]. apply mapM_Ok_Forall2 in Hsites.
  split; [symmetry; by eapply Forall2_length|].
  intros i row Hrow.
  destruct (Forall2_lookup_l _ _ _ _ _ Hsites Hrow) as (site & Hsite & Hnear).
  by exists site.
Qed.

(** C4 does not hold of the notebook's [multiple_site_index]: given a
    two-column frame with at least one point it returns no sequence of
    site indices; the first turn of its loop raises, with [KeyError] from
    [results[ind]] when the nearest site of the first point was found. *)
Theorem multiple_site_index_raises `{KDTreeLib} (POI_df : loc)
    (coord_array : list (float * float)) (σ : State)
    (cols : list label) (row : list float) (rows : list (list float)) :
  heap σ !! POI_df = Some (Frame cols (row :: rows)) ->
  length cols = 2%nat ->
  exists e,
    (multiple_site_index POI_df coord_array σ).2 = Raise e
    /\ forall i, nearest_site coord_array (row_lat row) (row_lon row) = Ok i ->
                 e = KeyError.
Proof.
  intros Hdf Hlen.
  destruct (multiple_site_index_run POI_df coord_array σ cols (row :: rows) Hdf Hlen)
    as (_ & _ & _ & _ & Hraise).
  by apply (Hraise row rows).
Qed.

Lemma multiple_site_index_raises_witness :
  (multiple_site_index (H:=Fixture.linear_scan) 0%nat Examples.coords Examples.sigma0).2
  = Raise KeyError.
Proof.
  destruct (multiple_site_index_raises (H:=Fixture.linear_scan) 0%nat
              Examples.coords Examples.sigma0
              [LStr "latitude"; LStr "longitude"]
              [of_Z 39; of_Z (-104)] [[of_Z 35; of_Z (-120)]])
    as (e & -> & He).
  - reflexivity.
  - reflexivity.
  - by rewrite (He 1%nat eq_refl).
Defined.

(** ** What the pipeline writes *)

(** C9, as the code behaves: [multiple_site_index] keeps the rows of the
    points frame it is given but sets its column labels to [lat] and
    [lon], in place, and touches no other frame that existed before the
    call; [time_subset], for every period and frame, leaves every frame
    that existed before the call as it was, its argument included, and
    writes to fresh addresses only. *)
Theorem pipeline_writes `{KDTreeLib} (np_sqrt : Q -> Q) :
  (forall (POI_df : loc) (coord_array : list (float * float)) (σ : State)
          (cols : list label) (rows : list (list float)),
      heap σ !! POI_df = Some (Frame cols rows) ->
      length cols = 2%nat ->
      heap (multiple_site_index POI_df coord_array σ).1 !! POI_df
      = Some (Frame [LStr "lat"; LStr "lon"] rows))
  /\ (forall (POI_df : loc) (coord_array : list (float * float)) (σ : State) (l : loc),
      l ∈ dom (heap σ) -> l <> POI_df ->
      heap (multiple_site_index POI_df coord_array σ).1 !! l = heap σ !! l)
  /\ (forall (period : string) (df : loc) (σ : State) (l : loc),
      l ∈ dom (heap σ) ->
      heap (time_subset np_sqrt period df σ).1 !! l = heap σ !! l).
Proof.
  split; [|split].
  - intros POI_df coord_array σ cols rows Hdf Hlen.
    by destruct (multiple_site_index_run POI_df coord_array σ cols rows Hdf Hlen)
      as (H1 & _ & -> & _).
  - intros. by apply multiple_site_index_frame.
  - intros. by apply time_subset_frame.
Qed.

Lemma pipeline_writes_witness :
  heap (multiple_site_index (H:=Fixture.linear_scan) 0%nat
          Examples.coords Examples.sigma0).1 !! 0%nat
  = Some (Frame [LStr "lat"; LStr "lon"]
                [ [of_Z 39; of_Z (-104)]; [of_Z 35; of_Z (-120)] ])
  /\ heap (time_subset Fixture.sqrt "month" 0%nat
             (Examples.with_frame (Decorated Examples.two_hours))).1 !! 0%nat
     = Some (Decorated Examples.two_hours).
Proof.
  destruct (pipeline_writes (H:=Fixture.linear_scan) Fixture.sqrt) as (H1 & _ & H3).
  split.
  - apply (H1 0%nat Examples.coords Examples.sigma0
              [LStr "latitude"; LStr "longitude"]); reflexivity.
  - refine (eq_trans (H3 "month" 0%nat
                          (Examples.with_frame (Decorated Examples.two_hours)) 0%nat _) _).
    + apply elem_of_dom. eexists. reflexivity.
    + reflexivity.
Defined.

(** C9 fails as stated: the column labels of the frame of points are not
    what they were before the call. *)
Lemma multiple_site_index_relabels_input :
  heap Examples.sigma0 !! 0%nat
  = Some (Frame [LStr "latitude"; LStr "longitude"]
                [ [of_Z 39; of_Z (-104)]; [of_Z 35; of_Z (-120)] ])
  /\ heap (multiple_site_index (H:=Fixture.linear_scan) 0%nat
             Examples.coords Examples.sigma0).1 !! 0%nat
     = Some (Frame [LStr "lat"; LStr "lon"]
                   [ [of_Z 39; of_Z (-104)]; [of_Z 35; of_Z (-120)] ])
  /\ heap (multiple_site_index (H:=Fixture.linear_scan) 0%nat
             Examples.coords Examples.sigma0).1 !! 0%nat
     <> heap Examples.sigma0 !! 0%nat.
Proof.
  split; [reflexivity|]. split; [reflexivity|].
  assert (E : heap (multiple_site_index (H:=Fixture.linear_scan) 0%nat
                      Examples.coords Examples.sigma0).1 !! 0%nat
              = Some (Frame [LStr "lat"; LStr "lon"]
                            [ [of_Z 39; of_Z (-104)]; [of_Z 35; of_Z (-120)] ]))
    by reflexivity.
  rewrite E. discriminate.
Qed.

(** ** The point frame *)

Lemma map_combine_snd {A B C : Type} (f : A * B -> C) (g : C -> B)
    (l1 : list A) (l2 : list B) :
  (forall a b, g (f (a, b)) = b) ->
  length l1 = length l2 ->
  List.map g (List.map f (combine l1 l2)) = l2.
Proof.
  intros Hgf. revert l2. induction l1 as [|a l1 IH]; intros [|b l2] Hlen;
    try discriminate; [done|].
  cbn. rewrite Hgf. f_equal. apply IH. by injection Hlen.
Qed.

Lemma map_combine_fst {A B C D : Type} (f : A * B -> C) (g : C -> D) (h : A -> D)
    (l1 : list A) (l2 : list B) :
  (forall a b, g (f (a, b)) = h a) ->
  length l1 = length l2 ->
  List.map g (List.map f (combine l1 l2)) = List.map h l1.
Proof.
  intros Hgf. revert l2. induction l1 as [|a l1 IH]; intros [|b l2] Hlen;
    try discriminate; [done|].
  cbn. rewrite Hgf. f_equal. apply IH. by injection Hlen.
Qed.

Lemma length_align (n : nat) (s : list float) : length (align n s) = n.
Proof. unfold align. by rewrite length_map, length_seq. Qed.

(** The rows of the frame that [windspeed_point_df_maker] builds all carry
    the same [avg_windspeed], the mean of the frame's [windspeed]
    column. *)
Lemma windspeed_point_df_maker_constant (windspeed_100 : list float)
    (time_df : list Timestamp) (coords_df : list (float * float))
    (series : list float) (POI_indx : nat) (σ σ' : State) (l : loc) :
  windspeed_point_df_maker windspeed_100 time_df coords_df series POI_indx σ
  = (σ', Ok l) ->
  exists rows,
    heap σ' !! l = Some (Decorated rows)
    /\ Forall (fun r => avg_windspeed r = mean (List.map windspeed rows)) rows.
Proof.
  unfold windspeed_point_df_maker. rewrite !bind_run. unfold lift.
  destruct (iloc coords_df.*1 POI_indx) as [lat|]; [|done].
  destruct (iloc coords_df.*2 POI_indx) as [lon|]; [|done].
  unfold alloc. intros [= <- <-]. eexists. split.
  { cbn. by rewrite lookup_insert_eq. }
  destruct time_df as [|t time_df].
  - rewrite List.map_map. cbn [windspeed]. rewrite List.map_id.
    apply List.Forall_map, Forall_forall. by intros.
  - rewrite map_combine_snd; [| by intros | by rewrite length_align].
    apply List.Forall_map, Forall_forall. by intros [? ?].
Qed.

(** C3 does not hold of the code: [windspeed_point_df_maker] fills the
    [windspeed] column from the global [windspeed_100], not from the
    series it is passed.  With the global series [1, 3] and the passed
    series [10, 20], every row carries the mean 2 of the global series,
    while the mean of the passed series is 15. *)
Theorem windspeed_point_df_maker_uses_global :
  windspeed_point_df_maker Examples.windspeed_100 Examples.time_two
    Examples.coords_df Examples.windspeed_10 0 Examples.empty_state
  = ({| heap := {[ 0%nat := Decorated Examples.two_hours ]}; stdout := [] |}, Ok 0%nat)
  /\ List.map avg_windspeed Examples.two_hours = [of_Z 2; of_Z 2]
  /\ mean Examples.windspeed_100 = of_Z 2
  /\ mean Examples.windspeed_10 = of_Z 15.
Proof. repeat split; reflexivity. Qed.

(** The parameter [windspeed] has no effect on the result. *)
Lemma windspeed_point_df_maker_ignores_argument (windspeed_100 : list float)
    (time_df : list Timestamp) (coords_df : list (float * float))
    (series series' : list float) (POI_indx : nat) :
  windspeed_point_df_maker windspeed_100 time_df coords_df series POI_indx
  = windspeed_point_df_maker windspeed_100 time_df coords_df series' POI_indx.
Proof. reflexivity. Qed.

(** ** Grouping *)

Section GroupByFacts.
Context {K : Type} (eqb leb : K -> K -> bool) (key : Row -> option K).

Lemma In_insert_key (k x : K) (l : list K) :
  In x (insert_key leb k l) <-> x = k \/ In x l.
Proof.
  induction l as [|a l IH]; cbn.
  - intuition.
  - destruct (leb k a); cbn; [intuition|]. rewrite IH. intuition.
Qed.

Lemma In_sort_keys (x : K) (l : list K) :
  In x (sort_keys leb l) <-> In x l.
Proof.
  induction l as [|a l IH]; [done|].
  change (sort_keys leb (a :: l)) with (insert_key leb a (sort_keys leb l)).
  rewrite In_insert_key, IH. cbn. intuition.
Qed.

Lemma In_unique (x : K) (l : list K) : In x (unique eqb l) -> In x l.
Proof.
  induction l as [|a l IH]; cbn; [done|].
  destruct (existsb (eqb a) (unique eqb l)); cbn; intuition.
Qed.

(** The keys of the groups are keys of rows. *)
Lemma group_keys_from_rows (k : K) (rows : list Row) :
  In k (group_keys eqb leb key rows) -> exists r, In r rows /\ key r = Some k.
Proof.
  unfold group_keys. rewrite In_sort_keys. intros Hk%In_unique.
  apply list_elem_of_In, list_elem_of_omap in Hk as (r & Hr & Hkey).
  exists r. split; [by apply list_elem_of_In | done].
Qed.

Hypothesis eqb_refl : forall k, eqb k k = true.
Hypothesis eqb_sym : forall a b, eqb a b = eqb b a.
Hypothesis eqb_trans : forall a b c, eqb a b = true -> eqb b c = true -> eqb a c = true.


Lemma unique_distinct (l : list K) :
  ForallOrdPairs (fun a b => eqb a b = false) (unique eqb l).
Proof.
  induction l as [|a l IH]; cbn; [constructor|].
  destruct (existsb (eqb a) (unique eqb l)) eqn:E; [done|].
  constructor; [|done].
  apply Forall_forall. intros x Hx.
  destruct (eqb a x) eqn:Eax; [|done].
  assert (existsb (eqb a) (unique eqb l) = true); [|congruence].
  apply existsb_exists. exists x. split; [by apply list_elem_of_In | done].
Qed.

Lemma insert_key_distinct (k : K) (l : list K) :
  ForallOrdPairs (fun a b => eqb a b = false) l ->
  Forall (fun x => eqb k x = false) l ->
  ForallOrdPairs (fun a b => eqb a b = false) (insert_key leb k l).
Proof.
  induction 1 as [|a l Ha Hl IH]; intros Hk; cbn.
  - repeat constructor.
  - destruct (leb k a).
    { constructor; [exact Hk|]. by constructor. }
    apply Forall_cons in Hk as [Hka Hk].
    constructor; [|by apply IH].
    apply Forall_forall. intros x Hx%list_elem_of_In%In_insert_key.
    destruct Hx as [->|Hx]; [by rewrite eqb_sym|].
    rewrite Forall_forall in Ha. by apply Ha, list_elem_of_In.
Qed.

Lemma sort_keys_distinct (l : list K) :
  ForallOrdPairs (fun a b => eqb a b = false) l ->
  ForallOrdPairs (fun a b => eqb a b = false) (sort_keys leb l).
Proof.
  induction 1 as [|a l Ha Hl IH]; [constructor|].
  change (sort_keys leb (a :: l)) with (insert_key leb a (sort_keys leb l)).
  apply insert_key_distinct; [done|].
  apply Forall_forall. intros x Hx%list_elem_of_In. rewrite In_sort_keys in Hx.
  rewrite Forall_forall in Ha. by apply Ha, list_elem_of_In.
Qed.

Lemma filter_disjoint_union (P Q : Row -> bool) (rows : list Row) :
  (forall r, P r = true -> Q r = false) ->
  List.filter P rows ++ List.filter Q rows
  ≡ₚ List.filter (fun r => P r || Q r) rows.
Proof.
  intros HPQ. induction rows as [|r rows IH]; cbn; [done|].
  destruct (P r) eqn:EP; cbn.
  - rewrite (HPQ r EP). by constructor.
  - destruct (Q r); [|done].
    rewrite <- Permutation_middle. by constructor.
Qed.

Lemma groups_partition (ks : list K) (rows : list Row) :
  ForallOrdPairs (fun a b => eqb a b = false) ks ->
  concat (List.map (fun k => List.filter (has_key eqb key k) rows) ks)
  ≡ₚ List.filter (fun r => existsb (fun k => has_key eqb key k r) ks) rows.
Proof.
  induction 1 as [|a ks Ha Hks IH]; cbn.
  - induction rows; [done|]. by cbn.
  - rewrite IH. apply filter_disjoint_union.
    intros r Har. apply not_true_is_false. intros (k & Hk & Hkr)%existsb_exists.
    unfold has_key in Har, Hkr. destruct (key r) as [kr|]; [|done].
    rewrite Forall_forall in Ha. specialize (Ha k (proj2 (list_elem_of_In _ _) Hk)).
    rewrite (eqb_sym k kr) in Hkr. rewrite (eqb_trans _ _ _ Har Hkr) in Ha. done.
Qed.

End GroupByFacts.

(** Key equality on the temporal keys is an equivalence, and equal keys
    are in order. *)
Lemma ymx_eqb_eq (a b : Z * Z * Z) : ymx_eqb a b = true <-> a = b.
Proof.
  destruct a as [[y m] x], b as [[y' m'] x'].
  unfold ymx_eqb, pair_eqb. cbn. rewrite !andb_true_iff, !Z.eqb_eq.
  split; [intros [[-> ->] ->]; done | intros [= -> -> ->]; done].
Qed.

Lemma ymx_eqb_refl (a : Z * Z * Z) : ymx_eqb a a = true.
Proof. by apply ymx_eqb_eq. Qed.

Lemma ymx_eqb_sym (a b : Z * Z * Z) : ymx_eqb a b = ymx_eqb b a.
Proof.
  destruct (ymx_eqb a b) eqn:E1, (ymx_eqb b a) eqn:E2; try done.
  - apply ymx_eqb_eq in E1 as ->. by rewrite ymx_eqb_refl in E2.
  - apply ymx_eqb_eq in E2 as ->. by rewrite ymx_eqb_refl in E1.
Qed.

Lemma ymx_eqb_trans (a b c : Z * Z * Z) :
  ymx_eqb a b = true -> ymx_eqb b c = true -> ymx_eqb a c = true.
Proof. intros ->%ymx_eqb_eq ->%ymx_eqb_eq. apply ymx_eqb_refl. Qed.

Lemma ymx_leb_of_eqb (a b : Z * Z * Z) : ymx_eqb a b = true -> ymx_leb a b = true.
Proof.
  intros ->%ymx_eqb_eq. destruct b as [[y m] x].
  unfold ymx_leb, lex_leb, pair_eqb. cbn. rewrite !Z.eqb_refl. cbn. lia.
Qed.

Lemma Z_leb_of_eqb (a b : Z) : (a =? b) = true -> (a <=? b) = true.
Proof. lia. Qed.

Lemma Z_eqb_trans (a b c : Z) : (a =? b) = true -> (b =? c) = true -> (a =? c) = true.
Proof. lia. Qed.

Lemma feqb_refl (c : float) : np_isnan c = false -> feqb c c = true.
Proof. destruct c; cbn; try done. intros _. apply Qeq_bool_refl. Qed.

Lemma fleb_refl (c : float) : np_isnan c = false -> fleb c c = true.
Proof.
  destruct c; cbn; try done. intros _. apply Qle_bool_iff, Qle_refl.
Qed.

(** ** Grouping with a constant last key *)

Section ConstantKey.
Context {T : Type} (teqb tleb : T -> T -> bool) (tkey : Row -> option T).
Context (key : Row -> option (T * float)) (c : float).

Hypothesis c_notna : np_isnan c = false.
Hypothesis tleb_of_teqb : forall a b, teqb a b = true -> tleb a b = true.

Lemma pair_eqb_constant (a b : T) : pair_eqb teqb feqb (a, c) (b, c) = teqb a b.
Proof. unfold pair_eqb. cbn. rewrite (feqb_refl c c_notna). apply andb_true_r. Qed.

Lemma lex_leb_constant (a b : T) : lex_leb teqb tleb fleb (a, c) (b, c) = tleb a b.
Proof.
  unfold lex_leb. cbn. rewrite (fleb_refl c c_notna).
  destruct (teqb a b) eqn:E; [|done]. by rewrite tleb_of_teqb.
Qed.

Lemma existsb_constant (k : T) (u : list T) :
  existsb (pair_eqb teqb feqb (k, c)) (List.map (fun t => (t, c)) u)
  = existsb (teqb k) u.
Proof.
  induction u as [|x u IHu]; [done|].
  cbn [existsb List.map]. by rewrite pair_eqb_constant, IHu.
Qed.

Lemma unique_constant (ks : list T) :
  unique (pair_eqb teqb feqb) (List.map (fun t => (t, c)) ks)
  = List.map (fun t => (t, c)) (unique teqb ks).
Proof.
  induction ks as [|k ks IH]; [done|]. cbn [unique List.map].
  rewrite IH, existsb_constant.
  by destruct (existsb (teqb k) (unique teqb ks)).
Qed.

Lemma insert_key_constant (k : T) (ks : list T) :
  insert_key (lex_leb teqb tleb fleb) (k, c) (List.map (fun t => (t, c)) ks)
  = List.map (fun t => (t, c)) (insert_key tleb k ks).
Proof.
  induction ks as [|x ks IH]; [done|].
  cbn [insert_key List.map].
  rewrite lex_leb_constant. destruct (tleb k x); [done|].
  cbn [List.map]. by rewrite IH.
Qed.

Lemma sort_keys_constant (ks : list T) :
  sort_keys (lex_leb teqb tleb fleb) (List.map (fun t => (t, c)) ks)
  = List.map (fun t => (t, c)) (sort_keys tleb ks).
Proof.
  induction ks as [|k ks IH]; [done|].
  change (sort_keys (lex_leb teqb tleb fleb) (List.map (fun t => (t, c)) (k :: ks)))
    with (insert_key (lex_leb teqb tleb fleb) (k, c)
            (sort_keys (lex_leb teqb tleb fleb) (List.map (fun t => (t, c)) ks))).
  rewrite IH. apply insert_key_constant.
Qed.

(** When the last key cell is the same present value [c] in every row,
    the groups are those of the other keys, each key extended by
    [c]. *)
Lemma groupby_constant (rows : list Row) :
  Forall (fun r => key r = (t ← tkey r; Some (t, c))) rows ->
  groupby (pair_eqb teqb feqb) (lex_leb teqb tleb fleb) key rows
  = List.map (Temporal.carry c) (groupby teqb tleb tkey rows).
Proof.
  intros Hkey.
  assert (Hkeys : omap key rows = List.map (fun t => (t, c)) (omap tkey rows)).
  { induction Hkey as [|r rows Hr _ IH]; [done|]. cbn.
    rewrite Hr, IH. by destruct (tkey r). }
  unfold groupby, group_keys.
  rewrite Hkeys, unique_constant, sort_keys_constant, !List.map_map.
  apply List.map_ext. intros t. unfold Temporal.carry. cbn. f_equal.
  apply List.filter_ext_in. intros r Hr.
  rewrite Forall_forall in Hkey.
  unfold has_key. rewrite (Hkey r (proj2 (list_elem_of_In _ _) Hr)).
  destruct (tkey r) as [t'|]; cbn; [|done]. apply pair_eqb_constant.
Qed.
End ConstantKey.

Lemma key_hour_constant (c : float) (r : Row) :
  np_isnan c = false -> avg_windspeed r = c ->
  key_hour r = (t ← Temporal.key_hour r; Some (t, c)).
Proof.
  intros Hc Hr. unfold key_hour, Temporal.key_hour, notna. rewrite Hr, Hc.
  by destruct (year r), (month r), (hour r).
Qed.

Lemma key_day_constant (c : float) (r : Row) :
  np_isnan c = false -> avg_windspeed r = c ->
  key_day r = (t ← Temporal.key_day r; Some (t, c)).
Proof.
  intros Hc Hr. unfold key_day, Temporal.key_day, notna. rewrite Hr, Hc.
  by destruct (year r), (month r), (day r).
Qed.

Lemma key_month_constant (c : float) (r : Row) :
  np_isnan c = false -> avg_windspeed r = c ->
  key_month r = (t ← Temporal.key_month r; Some (t, c)).
Proof.
  intros Hc Hr. unfold key_month, Temporal.key_month, notna. rewrite Hr, Hc.
  by destruct (month r).
Qed.

Lemma groupby_hour_constant (c : float) (rows : list Row) :
  np_isnan c = false ->
  Forall (fun r => avg_windspeed r = c) rows ->
  groupby_hour rows = List.map (Temporal.carry c) (Temporal.groupby_hour rows).
Proof.
  intros Hc Hrows. apply groupby_constant; [done | apply ymx_leb_of_eqb |].
  eapply Forall_impl; [exact Hrows|]. intros r. by apply key_hour_constant.
Qed.

Lemma groupby_day_constant (c : float) (rows : list Row) :
  np_isnan c = false ->
  Forall (fun r => avg_windspeed r = c) rows ->
  groupby_day rows = List.map (Temporal.carry c) (Temporal.groupby_day rows).
Proof.
  intros Hc Hrows. apply groupby_constant; [done | apply ymx_leb_of_eqb |].
  eapply Forall_impl; [exact Hrows|]. intros r. by apply key_day_constant.
Qed.

Lemma groupby_month_constant (c : float) (rows : list Row) :
  np_isnan c = false ->
  Forall (fun r => avg_windspeed r = c) rows ->
  groupby_month rows = List.map (Temporal.carry c) (Temporal.groupby_month rows).
Proof.
  intros Hc Hrows. apply groupby_constant; [done | apply Z_leb_of_eqb |].
  eapply Forall_impl; [exact Hrows|]. intros r. by apply key_month_constant.
Qed.

(** C10, as the code behaves: when [avg_windspeed] is the same value in
    every row and that value is not NaN, grouping by the temporal keys
    together with [avg_windspeed] gives the groups of the temporal keys
    alone, each key extended by the constant; the tables of
    [time_subset], and all it does, are then those of the aggregation
    that groups by the temporal keys and carries the constant. *)
Theorem time_subset_groups_by_temporal_keys (np_sqrt : Q -> Q) (c : float)
    (rows : list Row) :
  np_isnan c = false ->
  Forall (fun r => avg_windspeed r = c) rows ->
  groupby_hour rows = List.map (Temporal.carry c) (Temporal.groupby_hour rows)
  /\ groupby_day rows = List.map (Temporal.carry c) (Temporal.groupby_day rows)
  /\ groupby_month rows = List.map (Temporal.carry c) (Temporal.groupby_month rows)
  /\ forall (period : string) (df : loc) (σ : State),
       heap σ !! df = Some (Decorated rows) ->
       time_subset np_sqrt period df σ = Temporal.time_subset np_sqrt c period df σ.
Proof.
  intros Hc Hrows.
  pose proof (groupby_hour_constant c rows Hc Hrows) as Hh.
  pose proof (groupby_day_constant c rows Hc Hrows) as Hd.
  pose proof (groupby_month_constant c rows Hc Hrows) as Hm.
  repeat split; try done.
  intros period df σ Hdf. unfold time_subset, Temporal.time_subset.
  destruct (String.eqb period "hour");
    [|destruct (String.eqb period "day"); [|destruct (String.eqb period "month")]];
    run_M; rewrite ?Hdf; try done.
  - by rewrite Hh, List.map_map.
  - by rewrite Hd, List.map_map.
  - by rewrite Hm, List.map_map.
Qed.

Lemma time_subset_groups_by_temporal_keys_witness :
  groupby_hour Examples.two_hours
  = List.map (Temporal.carry (of_Z 2)) (Temporal.groupby_hour Examples.two_hours)
  /\ time_subset Fixture.sqrt "month" 0%nat
       (Examples.with_frame (Decorated Examples.two_hours))
     = Temporal.time_subset Fixture.sqrt (of_Z 2) "month" 0%nat
         (Examples.with_frame (Decorated Examples.two_hours)).
Proof.
  destruct (time_subset_groups_by_temporal_keys Fixture.sqrt (of_Z 2)
              Examples.two_hours) as (Hh & _ & _ & Hrun).
  - reflexivity.
  - repeat constructor.
  - split; [exact Hh|]. apply Hrun. reflexivity.
Defined.

(** C10 fails as stated: the frame that [windspeed_point_df_maker]
    builds from a series whose one wind speed is missing has a constant
    [avg_windspeed], NaN; the grouping of [time_subset] then drops every
    row, while the grouping by month alone keeps the month with its
    row. *)
Lemma constant_missing_mean_drops_groups :
  windspeed_point_df_maker [NaN] [ {| ts_year := 2012; ts_month := 1;
                                      ts_day := 1; ts_hour := 0 |} ]
    Examples.coords_df [NaN] 0 Examples.empty_state
  = (Examples.with_frame (Decorated Examples.missing_hour), Ok 0%nat)
  /\ Forall (fun r => avg_windspeed r = NaN) Examples.missing_hour
  /\ groupby_month Examples.missing_hour = []
  /\ Temporal.groupby_month Examples.missing_hour = [(1, Examples.missing_hour)]
  /\ time_subset Fixture.sqrt "month" 0%nat
       (Examples.with_frame (Decorated Examples.missing_hour))
     <> Temporal.time_subset Fixture.sqrt NaN "month" 0%nat
          (Examples.with_frame (Decorated Examples.missing_hour)).
Proof.
  split; [reflexivity|]. split; [repeat constructor|].
  split; [reflexivity|]. split; [reflexivity|].
  intros E. apply (f_equal (fun x => heap x.1 !! 1%nat)) in E.
  vm_compute in E. discriminate E.
Qed.

(** ** Groups of one sample *)



Lemma mapM_Ok {A B : Type} (f : A -> result B) (l : list A) :
  Forall (fun x => exists y, f x = Ok y) l -> exists ys, mapM f l = Ok ys.
Proof.
  induction 1 as [|x l [y Hy] _ [ys IH]]; [by exists []|].
  exists (y :: ys). cbn. by rewrite Hy, IH.
Qed.

(** The dates of the daily table parse. *)
Lemma day_table_dates (np_sqrt : Q -> Q) (rows : list Row) :
  dates_ok rows ->
  exists date,
    mapM (fun r => to_datetime (dy_year r) (dy_month r) (dy_day r))
         (List.map (agg_day np_sqrt) (groupby_day rows)) = Ok date.
Proof.
  intros Hok. apply mapM_Ok, List.Forall_map, Forall_forall.
  intros [[[[y m] d] a] g] Hg%list_elem_of_In. cbn.
  unfold groupby_day, groupby in Hg. apply in_map_iff in Hg as (k & [= -> _] & Hk).
  apply group_keys_from_rows in Hk as (r & Hr & Hkey).
  unfold dates_ok in Hok. rewrite Forall_forall in Hok.
  specialize (Hok r (proj2 (list_elem_of_In _ _) Hr)).
  unfold key_day in Hkey.
  destruct (year r) as [y'|], (month r) as [m'|], (day r) as [d'|],
    (notna (avg_windspeed r)) as [a'|]; try discriminate.
  injection Hkey as -> -> -> ->.
  unfold to_datetime. rewrite (Hok y m d) by done. eauto.
Qed.



Lemma dates_ok_two_hours : dates_ok Examples.two_hours.
Proof.
  repeat constructor; intros y m d [= <-] [= <-] [= <-]; reflexivity.
Qed.


(** The scenario of C8, run: two hours of one day grouped by hour give
    two groups of one sample, and both standard deviations are NaN. *)
Lemma two_hours_by_hour :
  List.map (@length Row) (groups_of "hour" Examples.two_hours) = [1%nat; 1%nat]
  /\ (List.map (fun t => standard_devs t)
        (option_list (heap (time_subset Fixture.sqrt "hour" 0%nat
           (Examples.with_frame (Decorated Examples.two_hours))).1 !! 1%nat)))
     = [[NaN; NaN]].
Proof. split; reflexivity. Qed.

(** ** A full year by month *)

(** A year has 8784 hours when it is a leap year, and 8760 otherwise. *)
Lemma year_axis_length (y : Z) :
  length (year_axis y) = if is_leap y then (24 * 366)%nat else (24 * 365)%nat.
Proof.
  unfold year_axis, days_in_month. destruct (is_leap y); vm_compute; reflexivity.
Qed.

















(** ** Point frames built from a time axis *)

Lemma windspeed_point_df_maker_nonempty (windspeed_100 : list float)
    (time_df : list Timestamp) (coords_df : list (float * float))
    (series : list float) (POI_indx : nat) :
  time_df <> [] ->
  windspeed_point_df_maker windspeed_100 time_df coords_df series POI_indx
  = (lat ← lift (iloc (coords_df.*1) POI_indx);
     lon ← lift (iloc (coords_df.*2) POI_indx);
     let column := align (length time_df) windspeed_100 in
     alloc (Decorated (List.map (fun '(t, w) =>
       {| year := Some (ts_year t); month := Some (ts_month t);
          day := Some (ts_day t); hour := Some (ts_hour t);
          latitude := lat; longitude := lon;
          windspeed := w; avg_windspeed := mean column |})
       (combine time_df column)))).
Proof. by destruct time_df. Qed.

Lemma align_same_length (s : list float) : align (length s) s = s.
Proof.
  unfold align. apply list_eq. intros i. rewrite list_lookup_fmap.
  destruct (decide (i < length s)%nat) as [Hi|Hi].
  - rewrite lookup_seq_lt by done. cbn.
    by destruct (lookup_lt_is_Some_2 s i Hi) as [x ->].
  - rewrite lookup_seq_ge by lia. symmetry. apply lookup_ge_None. lia.
Qed.

(** With a time axis of at least one timestamp, a site in range, and a
    global series of the length of the axis, the frame that
    [windspeed_point_df_maker] builds has one row per timestamp, with the
    calendar cells of the timestamp, the value of the global series at
    that position, and the mean of the global series. *)
Lemma windspeed_point_df_maker_rows (windspeed_100 : list float)
    (time_df : list Timestamp) (coords_df : list (float * float))
    (series : list float) (POI_indx : nat) (σ σ' : State) (l : loc) :
  windspeed_point_df_maker windspeed_100 time_df coords_df series POI_indx σ
  = (σ', Ok l) ->
  time_df <> [] ->
  length windspeed_100 = length time_df ->
  exists rows,
    heap σ' !! l = Some (Decorated rows)
    /\ List.map calendar rows = List.map stamp time_df
    /\ List.map windspeed rows = windspeed_100
    /\ Forall (fun r => avg_windspeed r = mean windspeed_100) rows.
Proof.
  intros Hrun Hne Hlen. revert Hrun.
  rewrite (windspeed_point_df_maker_nonempty _ _ _ _ _ Hne).
  rewrite <- Hlen, align_same_length.
  rewrite !bind_run. unfold lift.
  destruct (iloc coords_df.*1 POI_indx) as [lat|]; [|done].
  destruct (iloc coords_df.*2 POI_indx) as [lon|]; [|done].
  unfold alloc. intros [= <- <-].
  eexists. split; [cbn [heap]; by rewrite lookup_insert_eq|].
  split; [|split].
  - apply map_combine_fst; [by intros | done].
  - apply map_combine_snd; [by intros | done].
  - apply List.Forall_map, Forall_forall. by intros [? ?].
Qed.

(** The frame built over the time axis of a year from a global series of
    finite values, one per hour, is a full year of finite samples carrying
    their mean: the series of C7. *)
Lemma windspeed_point_df_maker_full_year (windspeed_100 : list float) (y : Z)
    (coords_df : list (float * float)) (series : list float) (POI_indx : nat)
    (σ σ' : State) (l : loc) :
  windspeed_point_df_maker windspeed_100 (year_axis y) coords_df series POI_indx σ
  = (σ', Ok l) ->
  length windspeed_100 = length (year_axis y) ->
  Forall (fun x => np_isfinite x = true) windspeed_100 ->
  exists rows,
    heap σ' !! l = Some (Decorated rows)
    /\ full_year y rows
    /\ Forall (fun r => np_isfinite (windspeed r) = true) rows
    /\ Forall (fun r => avg_windspeed r = mean (List.map windspeed rows)) rows.
Proof.
  intros Hrun Hlen Hfin.
  destruct (windspeed_point_df_maker_rows _ _ _ _ _ _ _ _ Hrun) as (rows & Hl & Hcal & Hws & Havg).
  - intros E. apply (f_equal (@length _)) in E. rewrite year_axis_length in E.
    by destruct (is_leap y).
  - done.
  - exists rows. split; [done|]. split; [done|]. split.
    + rewrite <- Hws in Hfin. by apply List.Forall_map in Hfin.
    + by rewrite Hws.
Qed.

(** The dates of a frame built from timestamps are dates of timestamps. *)
Lemma windspeed_point_df_maker_dates_ok (windspeed_100 : list float)
    (time_df : list Timestamp) (coords_df : list (float * float))
    (series : list float) (POI_indx : nat) (σ σ' : State) (l : loc) :
  windspeed_point_df_maker windspeed_100 time_df coords_df series POI_indx σ
  = (σ', Ok l) ->
  Forall (fun t => valid_timestamp t = true) time_df ->
  exists rows, heap σ' !! l = Some (Decorated rows) /\ dates_ok rows.
Proof.
  unfold windspeed_point_df_maker. rewrite !bind_run. unfold lift.
  destruct (iloc coords_df.*1 POI_indx) as [lat|]; [|done].
  destruct (iloc coords_df.*2 POI_indx) as [lon|]; [|done].
  unfold alloc. intros [= <- <-] Hvalid.
  eexists. split; [cbn; by rewrite lookup_insert_eq|].
  unfold dates_ok. destruct time_df as [|t time_df].
  - apply List.Forall_map, Forall_forall. by intros.
  - apply List.Forall_map, Forall_forall.
    intros [t' w] Ht'%elem_of_zip_l y m d [= <-] [= <-] [= <-].
    rewrite Forall_forall in Hvalid. specialize (Hvalid t' Ht').
    unfold valid_timestamp in Hvalid.
    by apply andb_true_iff in Hvalid as [[Hvalid _]%andb_true_iff _].
Qed.

(** * Further properties of the notebook's functions *)

(** ** [h5_extractor]: outcomes *)

(** X1: [h5_extractor] returns a series exactly when the variable is
    stored, the site index is below the number of sites, and the data set
    has a [scale_factor] attribute; the series then has one value per time
    step.  Otherwise it raises [IndexError] when the variable is stored
    and the site index is out of range, whether or not there is a scale
    factor, and [KeyError] when the variable or the attribute is
    missing. *)
Theorem h5_extractor_outcome (raw_h5 : gmap string Dataset) (variable : string)
    (POI_indx : nat) :
  ((exists out, h5_extractor raw_h5 variable POI_indx = Ok out)
   <-> exists ds sf, raw_h5 !! variable = Some ds
         /\ (POI_indx < nsites ds)%nat
         /\ attrs ds !! "scale_factor" = Some sf)
  /\ (forall out ds, h5_extractor raw_h5 variable POI_indx = Ok out ->
        raw_h5 !! variable = Some ds -> length out = ntime ds)
  /\ (h5_extractor raw_h5 variable POI_indx = Raise IndexError
      <-> exists ds, raw_h5 !! variable = Some ds /\ (nsites ds <= POI_indx)%nat)
  /\ (h5_extractor raw_h5 variable POI_indx = Raise KeyError
      <-> raw_h5 !! variable = None
          \/ exists ds, raw_h5 !! variable = Some ds
               /\ (POI_indx < nsites ds)%nat
               /\ attrs ds !! "scale_factor" = None).
Proof.
  unfold h5_extractor, getitem, slice_column.
  destruct (raw_h5 !! variable) as [ds|] eqn:Hv; cbn -[Nat.ltb].
  2: { split; [|split; [|split]].
       - split; [by intros [? ?] | by intros (? & ? & ? & _)].
       - by intros.
       - split; [done | by intros (? & ? & _)].
       - split; [by left | done]. }
  destruct (Nat.ltb_spec POI_indx (nsites ds)) as [Hi|Hi]; cbn.
  2: { split; [|split; [|split]].
       - split; [by intros [? ?] | intros (? & ? & [= <-] & ? & _); lia].
       - by intros.
       - split; [by exists ds | done].
       - split; [done | intros [|(? & [= <-] & ? & _)]; [done | lia]]. }
  destruct (attrs ds !! "scale_factor") as [sf|] eqn:Hs; cbn.
  - split; [|split; [|split]].
    + split; [by exists ds, sf | by eexists].
    + intros out ds' [= <-] [= <-]. by rewrite !length_map, length_seq.
    + split; [done | intros (? & [= <-] & ?); lia].
    + split; [done | intros [|(? & [= <-] & _ & ?)]; [done | congruence]].
  - split; [|split; [|split]].
    + split; [by intros [? ?] | intros (? & ? & [= <-] & _ & ?); congruence].
    + by intros.
    + split; [done | intros (? & [= <-] & ?); lia].
    + split; [intros _; right; by exists ds | done].
Qed.

Lemma h5_extractor_outcome_witness :
  h5_extractor Examples.store500 "windspeed_100m" 3 = Raise IndexError
  /\ h5_extractor Examples.store500 "windspeed_10m" 0 = Raise KeyError.
Proof.
  split.
  - apply (h5_extractor_outcome Examples.store500 "windspeed_100m" 3).
    exists Examples.ds500. split; [reflexivity | simpl; lia].
  - apply (h5_extractor_outcome Examples.store500 "windspeed_10m" 0).
    left. reflexivity.
Defined.

(** The quotient of two cells is NaN exactly when one of them is NaN,
    or both are zero, or both are infinite. *)
Lemma fdiv_nan (x y : float) :
  np_isnan (fdiv x y)
  = np_isnan x || np_isnan y || (is_zero x && is_zero y) || (is_inf x && is_inf y).
Proof.
  destruct x as [a| | |], y as [b| | |]; cbn; try done.
  - rewrite orb_false_r. destruct (Qeq_bool b 0) eqn:Eb; [|by rewrite andb_false_r].
    rewrite andb_true_r.
    destruct (a ?= 0)%Q eqn:Ea; cbn; symmetry.
    + by apply Qeq_bool_iff, Qeq_alt.
    + apply Qeq_bool_false. intros E%Qeq_alt. congruence.
    + apply Qeq_bool_false. intros E%Qeq_alt. congruence.
  - by rewrite andb_false_r.
  - by rewrite andb_false_r.
  - by destruct (Qle_bool 0 b).
  - by destruct (Qle_bool 0 b).
Qed.

(** X2: a value of the series that [h5_extractor] returns is NaN exactly
    when the raw value of that time step or the scale factor is NaN, or
    both are zero, or both are infinite.  In particular, with raw values
    that are numbers and a scale factor that is a number other than zero
    and not infinite, no value of the series is NaN. *)
Theorem h5_extractor_nan_values (raw_h5 : gmap string Dataset) (variable : string)
    (POI_indx : nat) (ds : Dataset) (sf : float) (out : list float) :
  raw_h5 !! variable = Some ds ->
  attrs ds !! "scale_factor" = Some sf ->
  h5_extractor raw_h5 variable POI_indx = Ok out ->
  (forall t, (t < ntime ds)%nat ->
     exists x, out !! t = Some x
       /\ np_isnan x
          = np_isnan (raw ds t POI_indx) || np_isnan sf
            || (is_zero (raw ds t POI_indx) && is_zero sf)
            || (is_inf (raw ds t POI_indx) && is_inf sf))
  /\ ((forall t, (t < ntime ds)%nat -> np_isnan (raw ds t POI_indx) = false) ->
      np_isnan sf = false -> is_zero sf = false -> is_inf sf = false ->
      Forall (fun x => np_isnan x = false) out).
Proof.
  intros Hv Hs. unfold h5_extractor, getitem, slice_column. rewrite Hv. cbn -[Nat.ltb].
  destruct (POI_indx <? nsites ds)%nat; [|done]. cbn. rewrite Hs. cbn.
  intros [= <-]. split.
  - intros t Ht. eexists. split; [|apply fdiv_nan].
    rewrite List.map_map, list_lookup_fmap, lookup_seq_lt by done. reflexivity.
  - intros Hraw Hnan Hzero Hinf. rewrite List.map_map.
    apply List.Forall_map, Forall_forall. intros t Ht%elem_of_seq.
    rewrite fdiv_nan, Hnan, Hzero, Hinf, Hraw by lia.
    by rewrite !andb_false_r.
Qed.

Lemma h5_extractor_nan_values_witness :
  Forall (fun x => np_isnan x = false) [of_Z 5].
Proof.
  apply (h5_extractor_nan_values Examples.store500 "windspeed_100m" 0
           Examples.ds500 (of_Z 100) [of_Z 5]).
  - reflexivity.
  - reflexivity.
  - reflexivity.
  - intros t _. reflexivity.
  - reflexivity.
  - reflexivity.
  - reflexivity.
Defined.

(** ** [windspeed_point_df_maker]: outcomes, rows and alignment *)

Lemma iloc_pair (coords_df : list (float * float)) (i : nat) :
  iloc (coords_df.*1) i = match coords_df !! i with
                          | Some p => Ok p.1
                          | None => Raise IndexError
                          end
  /\ iloc (coords_df.*2) i = match coords_df !! i with
                             | Some p => Ok p.2
                             | None => Raise IndexError
                             end.
Proof.
  unfold iloc. rewrite !list_lookup_fmap. by destruct (coords_df !! i).
Qed.

(** X3: with a site index beyond the coordinates
    [windspeed_point_df_maker] raises [IndexError] and leaves the state as
    it was; with a site index in range it returns a new frame, at an
    address that was not in use, prints nothing, and leaves every frame
    that existed as it was. *)
Theorem windspeed_point_df_maker_effect (windspeed_100 : list float)
    (time_df : list Timestamp) (coords_df : list (float * float))
    (series : list float) (POI_indx : nat) (σ : State) :
  ((length coords_df <= POI_indx)%nat ->
     windspeed_point_df_maker windspeed_100 time_df coords_df series POI_indx σ
     = (σ, Raise IndexError))
  /\ ((POI_indx < length coords_df)%nat ->
        exists σ' l rows,
          windspeed_point_df_maker windspeed_100 time_df coords_df series POI_indx σ
          = (σ', Ok l)
          /\ (l ∉ dom (heap σ))
          /\ heap σ' !! l = Some (Decorated rows)
          /\ stdout σ' = stdout σ
          /\ forall l', l' ∈ dom (heap σ) -> heap σ' !! l' = heap σ !! l').
Proof.
  destruct (iloc_pair coords_df POI_indx) as [Hlat Hlon].
  unfold windspeed_point_df_maker. split.
  - intros Hi. rewrite bind_run. unfold lift at 1.
    rewrite Hlat, (proj2 (lookup_ge_None coords_df POI_indx)) by lia. done.
  - intros Hi. destruct (lookup_lt_is_Some_2 coords_df POI_indx Hi) as [[lat lon] Hp].
    rewrite !bind_run. unfold lift. rewrite Hlat, Hlon, Hp. cbn [fst snd].
    unfold alloc. do 3 eexists. split; [reflexivity|].
    split; [apply is_fresh|]. cbn [heap stdout].
    split; [by rewrite lookup_insert_eq|]. split; [done|].
    intros l' Hl'. rewrite lookup_insert_ne; [done|].
    intros <-. by apply (is_fresh (dom (heap σ))).
Qed.

Lemma windspeed_point_df_maker_effect_witness :
  windspeed_point_df_maker Examples.windspeed_100 Examples.time_two
    Examples.coords_df Examples.windspeed_10 7 Examples.empty_state
  = (Examples.empty_state, Raise IndexError).
Proof.
  apply (windspeed_point_df_maker_effect Examples.windspeed_100 Examples.time_two
           Examples.coords_df Examples.windspeed_10 7 Examples.empty_state).
  simpl. lia.
Defined.

Lemma align_take_pad (n : nat) (s : list float) :
  align n s = take n s ++ replicate (n - length s) NaN.
Proof.
  unfold align. apply list_eq. intros i. rewrite list_lookup_fmap.
  destruct (decide (i < n)%nat) as [Hi|Hi].
  - rewrite lookup_seq_lt by done. cbn.
    destruct (decide (i < length s)%nat) as [Hs|Hs].
    + rewrite lookup_app_l by (rewrite length_take; lia).
      rewrite lookup_take_lt by done.
      by destruct (lookup_lt_is_Some_2 s i Hs) as [x ->].
    + rewrite (proj2 (lookup_ge_None s i)) by lia. cbn.
      rewrite lookup_app_r by (rewrite length_take; lia).
      symmetry. apply lookup_replicate_2. rewrite length_take. lia.
  - rewrite lookup_seq_ge by lia. cbn. symmetry. apply lookup_ge_None.
    rewrite length_app, length_take, length_replicate. lia.
Qed.

Lemma dropna_pad (l : list float) (k : nat) :
  dropna (l ++ replicate k NaN) = dropna l.
Proof.
  unfold dropna. rewrite List.filter_app.
  assert (E : List.filter (fun x => negb (np_isnan x)) (replicate k NaN) = []).
  { induction k; [done|]. by cbn. }
  rewrite E. apply app_nil_r.
Qed.

Lemma mean_pad (l : list float) (k : nat) : mean (l ++ replicate k NaN) = mean l.
Proof. unfold mean. by rewrite dropna_pad. Qed.

(** X4: with a time axis of [n >= 1] timestamps and a site in range, the
    frame has one row per timestamp, in the order of the axis, with the
    calendar cells of the timestamp and the coordinates of the site; its
    wind speeds are the first [n] values of [windspeed_100], followed by
    NaN for the timestamps the series does not reach; and every row
    carries the mean of those first [n] values. *)
Theorem windspeed_point_df_maker_aligned (windspeed_100 : list float)
    (time_df : list Timestamp) (coords_df : list (float * float))
    (series : list float) (POI_indx : nat) (σ : State) (lat lon : float) :
  time_df <> [] ->
  coords_df !! POI_indx = Some (lat, lon) ->
  let n := length time_df in
  exists σ' l rows,
    windspeed_point_df_maker windspeed_100 time_df coords_df series POI_indx σ
    = (σ', Ok l)
    /\ heap σ' !! l = Some (Decorated rows)
    /\ List.map calendar rows = List.map stamp time_df
    /\ Forall (fun r => latitude r = lat /\ longitude r = lon) rows
    /\ List.map windspeed rows
       = take n windspeed_100 ++ replicate (n - length windspeed_100) NaN
    /\ Forall (fun r => avg_windspeed r = mean (take n windspeed_100)) rows.
Proof.
  intros Hne Hp n.
  destruct (iloc_pair coords_df POI_indx) as [Hlat Hlon].
  rewrite (windspeed_point_df_maker_nonempty _ _ _ _ _ Hne).
  rewrite !bind_run. unfold lift. rewrite Hlat, Hlon, Hp. cbn [fst snd].
  unfold alloc. do 3 eexists. split; [reflexivity|]. cbn [heap].
  split; [by rewrite lookup_insert_eq|]. fold n.
  split; [|split; [|split]].
  - apply map_combine_fst; [by intros | by rewrite length_align].
  - apply List.Forall_map, Forall_forall. by intros [? ?].
  - rewrite map_combine_snd; [apply align_take_pad | by intros | by rewrite length_align].
  - apply List.Forall_map, Forall_forall. intros [? ?] _. cbn.
    by rewrite align_take_pad, mean_pad.
Qed.

Lemma windspeed_point_df_maker_aligned_witness :
  exists σ' l rows,
    windspeed_point_df_maker [of_Z 4] Examples.time_two Examples.coords_df [] 0
      Examples.empty_state = (σ', Ok l)
    /\ heap σ' !! l = Some (Decorated rows)
    /\ List.map windspeed rows = [of_Z 4; NaN]
    /\ List.map avg_windspeed rows = [of_Z 4; of_Z 4].
Proof.
  destruct (windspeed_point_df_maker_aligned [of_Z 4] Examples.time_two
              Examples.coords_df [] 0 Examples.empty_state (of_Z 34) (of_Z (-119)))
    as (σ' & l & rows & Hrun & Hl & _ & _ & Hws & Havg).
  - discriminate.
  - reflexivity.
  - exists σ', l, rows. split; [exact Hrun|]. split; [exact Hl|].
    split; [exact Hws|].
    assert (Hlen : length rows = 2%nat).
    { apply (f_equal (@length _)) in Hws. by rewrite length_map in Hws. }
    destruct rows as [|r1 [|r2 [|r3 rows]]]; try discriminate.
    apply Forall_cons in Havg as [H1 Havg]. apply Forall_cons in Havg as [H2 _].
    cbn [List.map]. rewrite H1, H2. reflexivity.
Defined.

(** ** Grouping: what holds of every frame *)

Section GroupByOn.
Context {K : Type} (eqb leb : K -> K -> bool) (key : Row -> option K).

Hypothesis eqb_sym : forall a b, eqb a b = eqb b a.
Hypothesis eqb_trans : forall a b c, eqb a b = true -> eqb b c = true -> eqb a c = true.

Lemma unique_covers_at (x : K) (l : list K) :
  eqb x x = true -> In x l -> exists y, In y (unique eqb l) /\ eqb y x = true.
Proof.
  intros Hx. induction l as [|a l IH]; cbn; [done|].
  intros [->|Hin].
  - destruct (existsb (eqb x) (unique eqb l)) eqn:E.
    + apply existsb_exists in E as (y & Hy & Hxy).
      exists y. split; [done|]. by rewrite eqb_sym.
    + exists x. split; [by left | done].
  - destruct (IH Hin) as (y & Hy & Hyx).
    exists y. split; [|done].
    destruct (existsb (eqb a) (unique eqb l)); [done | by right].
Qed.

Lemma length_unique (l : list K) : (length (unique eqb l) <= length l)%nat.
Proof.
  induction l as [|a l IH]; cbn; [done|].
  destruct (existsb (eqb a) (unique eqb l)); cbn; lia.
Qed.

Lemma length_sort_keys (l : list K) : length (sort_keys leb l) = length l.
Proof.
  induction l as [|a l IH]; [done|].
  change (sort_keys leb (a :: l)) with (insert_key leb a (sort_keys leb l)).
  assert (Hins : forall k l', length (insert_key leb k l') = S (length l')).
  { intros k l'. induction l' as [|x l' IH']; cbn; [done|].
    destruct (leb k x); cbn; [done | by rewrite IH']. }
  rewrite Hins, IH. done.
Qed.

Lemma length_omap_le (rows : list Row) : (length (omap key rows) <= length rows)%nat.
Proof.
  induction rows as [|r rows IH]; cbn; [done|]. destruct (key r); cbn; lia.
Qed.

(** There are at most as many groups as rows. *)
Lemma length_groupby (rows : list Row) :
  (length (groupby eqb leb key rows) <= length rows)%nat.
Proof.
  unfold groupby, group_keys. rewrite length_map, length_sort_keys.
  etrans; [apply length_unique | apply length_omap_le].
Qed.

(** No two groups have equal keys. *)
Lemma groupby_keys_distinct (rows : list Row) :
  ForallOrdPairs (fun a b => eqb a b = false) (List.map fst (groupby eqb leb key rows)).
Proof.
  unfold groupby. rewrite List.map_map. cbn [fst]. rewrite List.map_id.
  apply sort_keys_distinct; [done | apply unique_distinct].
Qed.

Variable rows : list Row.
Hypothesis key_refl : forall r k, In r rows -> key r = Some k -> eqb k k = true.

(** The groups hold the rows that have a key, each of them once. *)
Lemma groupby_partition_on :
  concat (List.map snd (groupby eqb leb key rows))
  ≡ₚ List.filter (fun r => bool_decide (is_Some (key r))) rows.
Proof.
  unfold groupby. rewrite List.map_map. cbn [snd].
  rewrite (groups_partition eqb key eqb_sym eqb_trans)
    by (apply sort_keys_distinct; [done | apply unique_distinct]).
  apply Permutation_refl'. apply List.filter_ext_in.
  intros r Hr. cbn beta. unfold has_key. destruct (key r) as [kr|] eqn:Ekr.
  - rewrite bool_decide_eq_true_2 by eauto.
    apply existsb_exists.
    destruct (unique_covers_at kr (omap key rows)) as (y & Hy & Hykr).
    { by eapply key_refl. }
    { apply list_elem_of_In, list_elem_of_omap. exists r.
      split; [by apply list_elem_of_In | done]. }
    exists y. split; [|done]. by apply (In_sort_keys eqb).
  - rewrite bool_decide_eq_false_2 by (by intros [? ?]).
    induction (group_keys eqb leb key rows); [done|]. by cbn.
Qed.

(** No group is empty. *)
Lemma groupby_nonempty :
  Forall (fun g : K * list Row => g.2 <> []) (groupby eqb leb key rows).
Proof.
  unfold groupby. apply List.Forall_map, Forall_forall.
  intros k Hk%list_elem_of_In. cbn.
  destruct (group_keys_from_rows eqb leb key k rows Hk) as (r & Hr & Hkey).
  intros E. assert (Hin : In r (List.filter (has_key eqb key k) rows)).
  { apply List.filter_In. split; [done|]. unfold has_key. rewrite Hkey.
    by eapply key_refl. }
  by rewrite E in Hin.
Qed.
End GroupByOn.

(** The order of the keys. *)
Section SortKeys.
Context {K : Type} (leb : K -> K -> bool) (P : K -> Prop).

Hypothesis leb_total : forall a b, P a -> P b -> leb a b = true \/ leb b a = true.

Lemma insert_key_sorted (k : K) (l : list K) :
  P k -> Forall P l ->
  Sorted (fun a b => leb a b = true) l ->
  Sorted (fun a b => leb a b = true) (insert_key leb k l).
Proof.
  intros Hk Hl Hs. induction Hs as [|a l Hs IH Hhd]; cbn.
  - by repeat constructor.
  - apply Forall_cons in Hl as [Ha Hl].
    destruct (leb k a) eqn:E.
    + constructor; [by constructor | by constructor].
    + constructor; [by apply IH|].
      assert (Hak : leb a k = true).
      { destruct (leb_total a k Ha Hk) as [?|?]; [done | congruence]. }
      destruct l as [|b l]; cbn; [by constructor|].
      destruct (leb k b); constructor; [done|]. by inversion Hhd.
Qed.

Lemma Forall_insert_key (k : K) (l : list K) :
  P k -> Forall P l -> Forall P (insert_key leb k l).
Proof.
  intros Hk Hl. induction Hl as [|a l Ha Hl IH]; cbn; [by repeat constructor|].
  destruct (leb k a); repeat constructor; done.
Qed.

Lemma sort_keys_sorted (l : list K) :
  Forall P l -> Sorted (fun a b => leb a b = true) (sort_keys leb l).
Proof.
  induction 1 as [|a l Ha Hl IH]; [constructor|].
  change (sort_keys leb (a :: l)) with (insert_key leb a (sort_keys leb l)).
  apply insert_key_sorted; [done| |done].
  clear IH. induction Hl as [|b l Hb Hl IH']; [constructor|].
  change (sort_keys leb (b :: l)) with (insert_key leb b (sort_keys leb l)).
  by apply Forall_insert_key.
Qed.
End SortKeys.

Lemma StronglySorted_distinct {K : Type} (R D : K -> K -> Prop) (l : list K) :
  StronglySorted R l -> ForallOrdPairs D l ->
  StronglySorted (fun a b => R a b /\ D a b) l.
Proof.
  induction 1 as [|a l Hs IH Ha]; intros Hd; [constructor|].
  inversion Hd as [|? ? Hda Hdl]; subst. constructor; [by apply IH|].
  rewrite Forall_forall in Ha, Hda. apply Forall_forall. intros x Hx. split; auto.
Qed.

(** ** The keys of [time_subset] *)

Lemma feqb_sym (a b : float) : feqb a b = feqb b a.
Proof.
  destruct a as [x| | |], b as [y| | |]; cbn; try done.
  destruct (Qeq_bool x y) eqn:E1, (Qeq_bool y x) eqn:E2; try done.
  - apply Qeq_bool_sym in E1. congruence.
  - apply Qeq_bool_sym in E2. congruence.
Qed.

Lemma feqb_trans (a b c : float) : feqb a b = true -> feqb b c = true -> feqb a c = true.
Proof.
  destruct a as [x| | |], b as [y| | |], c as [z| | |]; cbn; try done.
  apply Qeq_bool_trans.
Qed.

Lemma fleb_total (a b : float) :
  np_isnan a = false -> np_isnan b = false -> fleb a b = true \/ fleb b a = true.
Proof.
  destruct a as [x| | |], b as [y| | |]; cbn; try done; auto.
  intros _ _. destruct (Qlt_le_dec x y) as [Hlt|Hle].
  - left. apply Qle_bool_iff. by apply Qlt_le_weak.
  - right. by apply Qle_bool_iff.
Qed.

Lemma fleb_trans (a b c : float) : fleb a b = true -> fleb b c = true -> fleb a c = true.
Proof.
  destruct a as [x| | |], b as [y| | |], c as [z| | |]; cbn; try done.
  rewrite !Qle_bool_iff. apply Qle_trans.
Qed.

Lemma pair_eqb_sym {A B : Type} (eqA : A -> A -> bool) (eqB : B -> B -> bool) :
  (forall a b, eqA a b = eqA b a) -> (forall a b, eqB a b = eqB b a) ->
  forall x y, pair_eqb eqA eqB x y = pair_eqb eqA eqB y x.
Proof. intros HA HB x y. unfold pair_eqb. by rewrite HA, HB. Qed.

Lemma pair_eqb_trans {A B : Type} (eqA : A -> A -> bool) (eqB : B -> B -> bool) :
  (forall a b c, eqA a b = true -> eqA b c = true -> eqA a c = true) ->
  (forall a b c, eqB a b = true -> eqB b c = true -> eqB a c = true) ->
  forall x y z, pair_eqb eqA eqB x y = true -> pair_eqb eqA eqB y z = true ->
                pair_eqb eqA eqB x z = true.
Proof.
  intros HA HB x y z. unfold pair_eqb. rewrite !andb_true_iff.
  intros [? ?] [? ?]. split; [by eapply HA | by eapply HB].
Qed.

Lemma ymx_leb_spec (a b : Z * Z * Z) :
  ymx_leb a b = true
  <-> a.1.1 < b.1.1
      \/ (a.1.1 = b.1.1 /\ (a.1.2 < b.1.2 \/ (a.1.2 = b.1.2 /\ a.2 <= b.2))).
Proof.
  destruct a as [[y m] x], b as [[y' m'] x'].
  unfold ymx_leb, lex_leb, pair_eqb. cbn.
  destruct (Z.eqb_spec y y'), (Z.eqb_spec m m'); cbn; rewrite Z.leb_le; lia.
Qed.

Lemma ymx_leb_total (a b : Z * Z * Z) : ymx_leb a b = true \/ ymx_leb b a = true.
Proof. rewrite !ymx_leb_spec. lia. Qed.

Lemma ymx_leb_trans (a b c : Z * Z * Z) :
  ymx_leb a b = true -> ymx_leb b c = true -> ymx_leb a c = true.
Proof. rewrite !ymx_leb_spec. lia. Qed.

Lemma ymx_leb_antisym (a b : Z * Z * Z) :
  ymx_leb a b = true -> ymx_leb b a = true -> a = b.
Proof.
  rewrite !ymx_leb_spec. destruct a as [[y m] x], b as [[y' m'] x']. cbn.
  intros H1 H2. assert (y = y' /\ m = m' /\ x = x') as (-> & -> & ->) by lia. done.
Qed.

Section LexKeys.
Context {A : Type} (eqA leA : A -> A -> bool).

Hypothesis eqA_eq : forall a b, eqA a b = true <-> a = b.
Hypothesis leA_total : forall a b, leA a b = true \/ leA b a = true.
Hypothesis leA_trans : forall a b c, leA a b = true -> leA b c = true -> leA a c = true.
Hypothesis leA_antisym : forall a b, leA a b = true -> leA b a = true -> a = b.

Lemma eqA_sym (a b : A) : eqA a b = eqA b a.
Proof.
  destruct (eqA a b) eqn:E1, (eqA b a) eqn:E2; try done.
  - apply eqA_eq in E1 as ->. by rewrite (proj2 (eqA_eq b b) eq_refl) in E2.
  - apply eqA_eq in E2 as ->. by rewrite (proj2 (eqA_eq a a) eq_refl) in E1.
Qed.

Lemma eqA_trans (a b c : A) : eqA a b = true -> eqA b c = true -> eqA a c = true.
Proof. intros ->%eqA_eq ->%eqA_eq. by apply eqA_eq. Qed.

(** The key tuples ending in a wind speed that is not NaN are totally
    ordered, and the order is transitive. *)
Lemma key_leb_total (x y : A * float) :
  np_isnan x.2 = false -> np_isnan y.2 = false ->
  lex_leb eqA leA fleb x y = true \/ lex_leb eqA leA fleb y x = true.
Proof.
  intros Hx Hy. unfold lex_leb. rewrite (eqA_sym y.1 x.1).
  destruct (eqA x.1 y.1); [by apply fleb_total | apply leA_total].
Qed.

Lemma key_leb_trans (x y z : A * float) :
  lex_leb eqA leA fleb x y = true -> lex_leb eqA leA fleb y z = true ->
  lex_leb eqA leA fleb x z = true.
Proof.
  unfold lex_leb.
  destruct (eqA x.1 y.1) eqn:Exy, (eqA y.1 z.1) eqn:Eyz.
  - apply eqA_eq in Exy, Eyz. rewrite Exy, Eyz.
    rewrite (proj2 (eqA_eq z.1 z.1) eq_refl). apply fleb_trans.
  - apply eqA_eq in Exy. rewrite Exy, Eyz. by intros _ ?.
  - apply eqA_eq in Eyz. rewrite <- Eyz, Exy. by intros ? _.
  - intros H1 H2. destruct (eqA x.1 z.1) eqn:Exz.
    + apply eqA_eq in Exz. rewrite <- Exz in H2.
      pose proof (leA_antisym _ _ H1 H2) as E.
      apply eqA_eq in E. congruence.
    + by eapply leA_trans.
Qed.

Lemma key_eqb_refl (x : A * float) :
  np_isnan x.2 = false -> pair_eqb eqA feqb x x = true.
Proof.
  intros Hx. unfold pair_eqb.
  by rewrite (proj2 (eqA_eq x.1 x.1) eq_refl), (feqb_refl _ Hx).
Qed.

(** The keys of the groups are in strictly ascending order. *)
Lemma groupby_keys_ascending (key : Row -> option (A * float)) (rows : list Row) :
  (forall r k, key r = Some k -> np_isnan k.2 = false) ->
  StronglySorted (fun a b => lex_leb eqA leA fleb a b = true
                             /\ pair_eqb eqA feqb a b = false)
    (List.map fst (groupby (pair_eqb eqA feqb) (lex_leb eqA leA fleb) key rows)).
Proof.
  intros Hkey. apply StronglySorted_distinct.
  - apply Sorted_StronglySorted; [intros x y z; apply key_leb_trans|].
    unfold groupby. rewrite List.map_map. cbn [fst]. rewrite List.map_id.
    apply (sort_keys_sorted _ (fun k => np_isnan k.2 = false)).
    + intros a b. apply key_leb_total.
    + apply Forall_forall. intros k Hk%list_elem_of_In.
      apply (In_unique (pair_eqb eqA feqb) (lex_leb eqA leA fleb)) in Hk.
      apply list_elem_of_In, list_elem_of_omap in Hk as (r & _ & Hr).
      by eapply Hkey.
  - apply groupby_keys_distinct.
    apply pair_eqb_sym; [apply eqA_sym | apply feqb_sym].
Qed.
End LexKeys.

Lemma key_hour_notna (r : Row) (k : Z * Z * Z * float) :
  key_hour r = Some k -> np_isnan k.2 = false.
Proof.
  unfold key_hour, notna.
  destruct (year r), (month r), (hour r); try done. cbn.
  destruct (np_isnan (avg_windspeed r)) eqn:E; [done|]. by intros [= <-].
Qed.

Lemma key_day_notna (r : Row) (k : Z * Z * Z * float) :
  key_day r = Some k -> np_isnan k.2 = false.
Proof.
  unfold key_day, notna.
  destruct (year r), (month r), (day r); try done. cbn.
  destruct (np_isnan (avg_windspeed r)) eqn:E; [done|]. by intros [= <-].
Qed.

Lemma key_month_notna (r : Row) (k : Z * float) :
  key_month r = Some k -> np_isnan k.2 = false.
Proof.
  unfold key_month, notna.
  destruct (month r); try done. cbn.
  destruct (np_isnan (avg_windspeed r)) eqn:E; [done|]. by intros [= <-].
Qed.

Lemma keyed_hour (r : Row) :
  bool_decide (is_Some (key_hour r)) = keyed "hour" r.
Proof.
  unfold keyed, key_hour, notna. cbn.
  destruct (year r), (month r), (hour r), (np_isnan (avg_windspeed r)); cbn;
    done || (apply bool_decide_eq_true_2; by eauto)
    || (apply bool_decide_eq_false_2; by intros [? ?]).
Qed.

Lemma keyed_day (r : Row) :
  bool_decide (is_Some (key_day r)) = keyed "day" r.
Proof.
  unfold keyed, key_day, notna. cbn.
  destruct (year r), (month r), (day r), (np_isnan (avg_windspeed r)); cbn;
    done || (apply bool_decide_eq_true_2; by eauto)
    || (apply bool_decide_eq_false_2; by intros [? ?]).
Qed.

Lemma keyed_month (r : Row) :
  bool_decide (is_Some (key_month r)) = keyed "month" r.
Proof.
  unfold keyed, key_month, notna. cbn.
  destruct (month r), (np_isnan (avg_windspeed r)); cbn;
    done || (apply bool_decide_eq_true_2; by eauto)
    || (apply bool_decide_eq_false_2; by intros [? ?]).
Qed.

Lemma key4_eqb_sym (a b : Z * Z * Z * float) :
  pair_eqb ymx_eqb feqb a b = pair_eqb ymx_eqb feqb b a.
Proof. apply pair_eqb_sym; [apply ymx_eqb_sym | apply feqb_sym]. Qed.

Lemma key4_eqb_trans (a b c : Z * Z * Z * float) :
  pair_eqb ymx_eqb feqb a b = true -> pair_eqb ymx_eqb feqb b c = true ->
  pair_eqb ymx_eqb feqb a c = true.
Proof. apply pair_eqb_trans; [apply ymx_eqb_trans | apply feqb_trans]. Qed.

Lemma key2_eqb_sym (a b : Z * float) :
  pair_eqb Z.eqb feqb a b = pair_eqb Z.eqb feqb b a.
Proof. apply pair_eqb_sym; [apply Z.eqb_sym | apply feqb_sym]. Qed.

Lemma key2_eqb_trans (a b c : Z * float) :
  pair_eqb Z.eqb feqb a b = true -> pair_eqb Z.eqb feqb b c = true ->
  pair_eqb Z.eqb feqb a c = true.
Proof. apply pair_eqb_trans; [apply Z_eqb_trans | apply feqb_trans]. Qed.

Lemma key_hour_refl (rows : list Row) (r : Row) (k : Z * Z * Z * float) :
  In r rows -> key_hour r = Some k -> pair_eqb ymx_eqb feqb k k = true.
Proof.
  intros _ Hk. apply (key_eqb_refl ymx_eqb ymx_eqb_eq). by eapply key_hour_notna.
Qed.

Lemma key_day_refl (rows : list Row) (r : Row) (k : Z * Z * Z * float) :
  In r rows -> key_day r = Some k -> pair_eqb ymx_eqb feqb k k = true.
Proof.
  intros _ Hk. apply (key_eqb_refl ymx_eqb ymx_eqb_eq). by eapply key_day_notna.
Qed.

Lemma key_month_refl (rows : list Row) (r : Row) (k : Z * float) :
  In r rows -> key_month r = Some k -> pair_eqb Z.eqb feqb k k = true.
Proof.
  intros _ Hk. apply (key_eqb_refl Z.eqb Z.eqb_eq). by eapply key_month_notna.
Qed.

Lemma filter_keyed (key : Row -> bool) (period : string) (rows : list Row) :
  (forall r, key r = keyed period r) ->
  List.filter key rows = List.filter (keyed period) rows.
Proof. intros E. apply List.filter_ext. exact E. Qed.

(** The groups of a period hold the rows whose key cells are present,
    each of them once; no group is empty; and there are at most as many
    groups as rows. *)
Lemma groups_of_cover (period : string) (rows : list Row) :
  period = "hour" \/ period = "day" \/ period = "month" ->
  (concat (groups_of period rows) ≡ₚ List.filter (keyed period) rows)
  /\ Forall (fun g : list Row => g <> []) (groups_of period rows)
  /\ (length (groups_of period rows) <= length rows)%nat.
Proof.
  intros [->|[->| ->]]; cbn [groups_of String.eqb Ascii.eqb Bool.eqb].
  - split; [|split].
    + rewrite <- (filter_keyed _ "hour" rows keyed_hour).
      apply (groupby_partition_on _ _ key_hour key4_eqb_sym key4_eqb_trans rows
               (key_hour_refl rows)).
    + apply List.Forall_map.
      apply (groupby_nonempty _ _ key_hour rows (key_hour_refl rows)).
    + rewrite length_map. apply length_groupby.
  - split; [|split].
    + rewrite <- (filter_keyed _ "day" rows keyed_day).
      apply (groupby_partition_on _ _ key_day key4_eqb_sym key4_eqb_trans rows
               (key_day_refl rows)).
    + apply List.Forall_map.
      apply (groupby_nonempty _ _ key_day rows (key_day_refl rows)).
    + rewrite length_map. apply length_groupby.
  - split; [|split].
    + rewrite <- (filter_keyed _ "month" rows keyed_month).
      apply (groupby_partition_on _ _ key_month key2_eqb_sym key2_eqb_trans rows
               (key_month_refl rows)).
    + apply List.Forall_map.
      apply (groupby_nonempty _ _ key_month rows (key_month_refl rows)).
    + rewrite length_map. apply length_groupby.
Qed.

(** What [time_subset] returns for the three periods, on a point frame
    whose dates parse. *)
Lemma time_subset_table (np_sqrt : Q -> Q) (period : string) (df : loc)
    (σ : State) (rows : list Row) :
  period = "hour" \/ period = "day" \/ period = "month" ->
  heap σ !! df = Some (Decorated rows) ->
  dates_ok rows ->
  exists table,
    time_subset np_sqrt period df σ
    = ({| heap := <[fresh (dom (heap σ)) := table]> (heap σ); stdout := stdout σ |},
       Ok (fresh (dom (heap σ))))
    /\ frame_length table = length (groups_of period rows)
    /\ group_means table
       = List.map (fun g => mean (List.map windspeed g)) (groups_of period rows)
    /\ standard_devs table
       = List.map (fun g => std np_sqrt (List.map windspeed g)) (groups_of period rows).
Proof.
  intros [->|[->| ->]] Hdf Hok.
  - rewrite (time_subset_hour _ _ _ _ Hdf). unfold alloc.
    eexists. split; [reflexivity|].
    cbn [frame_length group_means standard_devs groups_of String.eqb Ascii.eqb Bool.eqb].
    rewrite !length_map, !List.map_map.
    split; [done|].
    split; apply List.map_ext; by intros [[[[y m] h] a] g].
  - rewrite (time_subset_day _ _ _ _ Hdf).
    destruct (day_table_dates np_sqrt rows Hok) as [date ->].
    eexists. split; [reflexivity|].
    cbn [frame_length group_means standard_devs groups_of String.eqb Ascii.eqb Bool.eqb].
    rewrite !length_map, !List.map_map.
    split; [done|].
    split; apply List.map_ext; by intros [[[[y m] d] a] g].
  - rewrite (time_subset_month _ _ _ _ Hdf). unfold alloc.
    eexists. split; [reflexivity|].
    cbn [frame_length group_means standard_devs groups_of String.eqb Ascii.eqb Bool.eqb].
    rewrite !length_map, !List.map_map.
    split; [done|].
    split; apply List.map_ext; by intros [[m a] g].
Qed.

(** X5: for each of the three periods, on a point frame whose dates are
    those of timestamps, [time_subset] returns a new table at an address
    that was not in use and prints nothing.  The table has one row per
    group, carrying the mean of the wind speeds of the group; the groups
    hold exactly the rows whose key cells are all present (calendar cells
    not missing, [avg_windspeed] not NaN), each such row in one group and
    once; no group is empty; and the table has at most as many rows as the
    frame. *)
Theorem time_subset_groups_cover (np_sqrt : Q -> Q) (period : string) (df : loc)
    (σ : State) (rows : list Row) :
  period = "hour" \/ period = "day" \/ period = "month" ->
  heap σ !! df = Some (Decorated rows) ->
  dates_ok rows ->
  exists σ' l table,
    time_subset np_sqrt period df σ = (σ', Ok l)
    /\ (l ∉ dom (heap σ))
    /\ stdout σ' = stdout σ
    /\ heap σ' !! l = Some table
    /\ group_means table
       = List.map (fun g => mean (List.map windspeed g)) (groups_of period rows)
    /\ (concat (groups_of period rows) ≡ₚ List.filter (keyed period) rows)
    /\ Forall (fun g : list Row => g <> []) (groups_of period rows)
    /\ (frame_length table <= length rows)%nat.
Proof.
  intros Hp Hdf Hok.
  destruct (time_subset_table np_sqrt period df σ rows Hp Hdf Hok)
    as (table & Hrun & Hlen & Hmeans & _).
  destruct (groups_of_cover period rows Hp) as (Hpart & Hne & Hle).
  exists {| heap := <[fresh (dom (heap σ)) := table]> (heap σ); stdout := stdout σ |},
         (fresh (dom (heap σ))), table.
  split; [done|]. split; [apply is_fresh|]. split; [done|].
  split; [cbn; by rewrite lookup_insert_eq|].
  split; [done|]. split; [done|]. split; [done|]. by rewrite Hlen.
Qed.

Lemma time_subset_groups_cover_witness :
  exists σ' l table,
    time_subset Fixture.sqrt "day" 0%nat
      (Examples.with_frame (Decorated Examples.two_hours)) = (σ', Ok l)
    /\ heap σ' !! l = Some table
    /\ group_means table = [of_Z 2]
    /\ (concat (groups_of "day" Examples.two_hours) ≡ₚ Examples.two_hours).
Proof.
  destruct (time_subset_groups_cover Fixture.sqrt "day" 0%nat
              (Examples.with_frame (Decorated Examples.two_hours)) Examples.two_hours)
    as (σ' & l & table & Hrun & _ & _ & Hl & Hmeans & Hpart & _).
  - right. left. reflexivity.
  - reflexivity.
  - exact dates_ok_two_hours.
  - exists σ', l, table. split; [exact Hrun|]. split; [exact Hl|].
    split; [rewrite Hmeans; vm_compute; reflexivity | exact Hpart].
Defined.

Lemma Z_leb_total (a b : Z) : (a <=? b) = true \/ (b <=? a) = true.
Proof. lia. Qed.

Lemma Z_leb_trans (a b c : Z) : (a <=? b) = true -> (b <=? c) = true -> (a <=? c) = true.
Proof. lia. Qed.

Lemma Z_leb_antisym (a b : Z) : (a <=? b) = true -> (b <=? a) = true -> a = b.
Proof. lia. Qed.

Lemma hour_keys (np_sqrt : Q -> Q) (gs : list (Z * Z * Z * float * list Row)) :
  List.map hour_key (List.map (agg_hour np_sqrt) gs) = List.map fst gs.
Proof. rewrite List.map_map. apply List.map_ext. by intros [[[[y m] h] a] g]. Qed.

Lemma day_keys (np_sqrt : Q -> Q) (gs : list (Z * Z * Z * float * list Row)) :
  List.map day_key (List.map (agg_day np_sqrt) gs) = List.map fst gs.
Proof. rewrite List.map_map. apply List.map_ext. by intros [[[[y m] d] a] g]. Qed.

Lemma month_keys (np_sqrt : Q -> Q) (gs : list (Z * float * list Row)) :
  List.map month_key (List.map (agg_month np_sqrt) gs) = List.map fst gs.
Proof. rewrite List.map_map. apply List.map_ext. by intros [[m a] g]. Qed.

(** X6: the rows of the three tables come in strictly ascending order of
    their key cells, compared from left to right: (year, month, hour,
    avg_windspeed), (year, month, day, avg_windspeed) and (month,
    avg_windspeed); in particular no two rows of a table have the same
    key.  For the period day this holds of the table that was built,
    whether or not its dates parse afterwards. *)
Theorem time_subset_keys_ascending (np_sqrt : Q -> Q) (df : loc) (σ : State)
    (rows : list Row) :
  heap σ !! df = Some (Decorated rows) ->
  let l := fresh (dom (heap σ)) in
  (exists t, heap (time_subset np_sqrt "hour" df σ).1 !! l = Some (HourTable t)
             /\ StronglySorted key4_lt (List.map hour_key t))
  /\ (exists t date,
        heap (time_subset np_sqrt "day" df σ).1 !! l = Some (DayTable t date)
        /\ StronglySorted key4_lt (List.map day_key t))
  /\ (exists t, heap (time_subset np_sqrt "month" df σ).1 !! l = Some (MonthTable t)
                /\ StronglySorted key2_lt (List.map month_key t)).
Proof.
  intros Hdf l. split; [|split].
  - rewrite (time_subset_hour _ _ _ _ Hdf). unfold alloc. cbn [fst heap]. fold l.
    eexists. split; [by rewrite lookup_insert_eq|].
    rewrite hour_keys.
    apply (groupby_keys_ascending ymx_eqb ymx_leb ymx_eqb_eq ymx_leb_total
             ymx_leb_trans ymx_leb_antisym key_hour rows key_hour_notna).
  - rewrite (time_subset_day _ _ _ _ Hdf). fold l.
    assert (Hs : StronglySorted key4_lt
              (List.map day_key (List.map (agg_day np_sqrt) (groupby_day rows)))).
    { rewrite day_keys.
      apply (groupby_keys_ascending ymx_eqb ymx_leb ymx_eqb_eq ymx_leb_total
               ymx_leb_trans ymx_leb_antisym key_day rows key_day_notna). }
    destruct (mapM _ _); cbn [fst heap]; do 2 eexists;
      (split; [by rewrite lookup_insert_eq | exact Hs]).
  - rewrite (time_subset_month _ _ _ _ Hdf). unfold alloc. cbn [fst heap]. fold l.
    eexists. split; [by rewrite lookup_insert_eq|].
    rewrite month_keys.
    apply (groupby_keys_ascending Z.eqb Z.leb Z.eqb_eq Z_leb_total
             Z_leb_trans Z_leb_antisym key_month rows key_month_notna).
Qed.

Lemma time_subset_keys_ascending_witness :
  exists t, heap (time_subset Fixture.sqrt "hour" 0%nat
                    (Examples.with_frame (Decorated Examples.two_hours))).1 !! 1%nat
            = Some (HourTable t)
            /\ StronglySorted key4_lt (List.map hour_key t).
Proof.
  apply (time_subset_keys_ascending Fixture.sqrt 0%nat
           (Examples.with_frame (Decorated Examples.two_hours)) Examples.two_hours).
  reflexivity.
Defined.

Lemma mapM_to_datetime (table : list DayRow) (date : list Date) :
  mapM (fun r => to_datetime (dy_year r) (dy_month r) (dy_day r)) table = Ok date ->
  date = List.map day_row_date table
  /\ Forall (fun t => timestamp_day (dy_year t) (dy_month t) (dy_day t) = true) table.
Proof.
  revert date. induction table as [|t table IH]; intros date; cbn.
  - by intros [= <-].
  - destruct (to_datetime (dy_year t) (dy_month t) (dy_day t)) as [d|] eqn:Hd; [|done].
    cbn. destruct (mapM _ table) as [date'|]; [|done]. cbn.
    intros [= <-]. destruct (IH date' eq_refl) as [-> Hall].
    unfold to_datetime in Hd.
    destruct (timestamp_day (dy_year t) (dy_month t) (dy_day t)) eqn:Ht; [|done].
    injection Hd as <-. split; [done | by constructor].
Qed.

(** X7: on a point frame whose dates are those of timestamps,
    [time_subset] returns for the period day, and the table it returns
    has a [date] column with one date per row, which is the date that the
    year, month and day cells of that row spell, a day that a timestamp
    can hold; the table is a frame other than the input, and the input
    frame is still what it was. *)
Theorem time_subset_day_dates (np_sqrt : Q -> Q) (df : loc) (σ : State)
    (rows : list Row) :
  heap σ !! df = Some (Decorated rows) ->
  dates_ok rows ->
  exists σ' l table,
    time_subset np_sqrt "day" df σ = (σ', Ok l)
    /\ heap σ' !! l = Some (DayTable table (Some (List.map day_row_date table)))
    /\ Forall (fun t => timestamp_day (dy_year t) (dy_month t) (dy_day t) = true) table
    /\ l <> df
    /\ heap σ' !! df = Some (Decorated rows).
Proof.
  intros Hdf Hok. rewrite (time_subset_day _ _ _ _ Hdf).
  destruct (day_table_dates np_sqrt rows Hok) as [date Hdate]. rewrite Hdate.
  apply mapM_to_datetime in Hdate as [-> Hall].
  assert (Hne : fresh (dom (heap σ)) <> df).
  { intros E. apply (is_fresh (dom (heap σ))). rewrite E. apply elem_of_dom. eauto. }
  do 3 eexists. split; [reflexivity|]. cbn [heap].
  split; [by rewrite lookup_insert_eq|].
  split; [done|]. split; [done|]. by rewrite lookup_insert_ne.
Qed.

Lemma time_subset_day_dates_witness :
  exists σ' l table,
    time_subset Fixture.sqrt "day" 0%nat
      (Examples.with_frame (Decorated Examples.two_hours)) = (σ', Ok l)
    /\ heap σ' !! l = Some (DayTable table (Some (List.map day_row_date table)))
    /\ heap σ' !! 0%nat = Some (Decorated Examples.two_hours).
Proof.
  destruct (time_subset_day_dates Fixture.sqrt 0%nat
              (Examples.with_frame (Decorated Examples.two_hours)) Examples.two_hours)
    as (σ' & l & table & Hrun & Htable & _ & _ & Hdf).
  - reflexivity.
  - exact dates_ok_two_hours.
  - exists σ', l, table. split; [exact Hrun|]. split; [exact Htable | exact Hdf].
Defined.

(** X8: [time_subset] cannot be applied to one of its own tables: for
    each of the three periods and each of the three kinds of table the
    call raises [KeyError] (a key column, or the [windspeed] column that
    is aggregated, is not there), and the state is as it was. *)
Theorem time_subset_of_table (np_sqrt : Q -> Q) (period : string) (df : loc)
    (σ : State) (d : DataFrame) :
  period = "hour" \/ period = "day" \/ period = "month" ->
  heap σ !! df = Some d ->
  (exists t, d = HourTable t) \/ (exists t date, d = DayTable t date)
  \/ (exists t, d = MonthTable t) ->
  time_subset np_sqrt period df σ = (σ, Raise KeyError).
Proof.
  intros [->|[->| ->]] Hdf [[t ->]|[(t & date & ->)|[t ->]]];
    unfold time_subset; cbn [String.eqb Ascii.eqb Bool.eqb]; run_M;
    by rewrite Hdf.
Qed.

Lemma time_subset_of_table_witness :
  time_subset Fixture.sqrt "hour" 1%nat
    (time_subset Fixture.sqrt "hour" 0%nat
       (Examples.with_frame (Decorated Examples.two_hours))).1
  = ((time_subset Fixture.sqrt "hour" 0%nat
        (Examples.with_frame (Decorated Examples.two_hours))).1, Raise KeyError).
Proof.
  eapply (time_subset_of_table Fixture.sqrt "hour" 1%nat).
  - left. reflexivity.
  - reflexivity.
  - left. eexists. reflexivity.
Defined.

(** ** Frames without a key: empty tables *)

Lemma groups_of_no_keys (period : string) (rows : list Row) :
  period = "hour" \/ period = "day" \/ period = "month" ->
  Forall (fun r => keyed period r = false) rows ->
  groups_of period rows = [].
Proof.
  intros Hp Hk.
  assert (E : List.filter (keyed period) rows = []).
  { clear Hp. induction Hk as [|r rows Hr _ IH]; cbn; [done|]. by rewrite Hr. }
  destruct (groups_of_cover period rows Hp) as (Hpart & Hne & _).
  rewrite E in Hpart. symmetry in Hpart. apply Permutation_nil in Hpart.
  destruct (groups_of period rows) as [|g gs]; [done|].
  apply Forall_cons in Hne as [Hg _]. cbn in Hpart.
  by apply app_eq_nil in Hpart as [-> _].
Qed.

Lemma time_subset_no_keys (np_sqrt : Q -> Q) (period : string) (df : loc)
    (σ : State) (rows : list Row) :
  period = "hour" \/ period = "day" \/ period = "month" ->
  heap σ !! df = Some (Decorated rows) ->
  Forall (fun r => keyed period r = false) rows ->
  exists table,
    time_subset np_sqrt period df σ
    = ({| heap := <[fresh (dom (heap σ)) := table]> (heap σ); stdout := stdout σ |},
       Ok (fresh (dom (heap σ))))
    /\ frame_length table = 0%nat.
Proof.
  intros Hp Hdf Hk. pose proof (groups_of_no_keys period rows Hp Hk) as Hg.
  destruct Hp as [->|[->| ->]];
    cbn [groups_of String.eqb Ascii.eqb Bool.eqb] in Hg;
    apply map_eq_nil in Hg.
  - rewrite (time_subset_hour _ _ _ _ Hdf), Hg. by eexists.
  - rewrite (time_subset_day _ _ _ _ Hdf), Hg. by eexists.
  - rewrite (time_subset_month _ _ _ _ Hdf), Hg. by eexists.
Qed.

Lemma keyed_no_month (period : string) (r : Row) :
  year r = None -> month r = None -> keyed period r = false.
Proof.
  intros Hy Hm. unfold keyed. rewrite Hy, Hm. cbn.
  by repeat destruct (String.eqb period _).
Qed.

Lemma keyed_nan (period : string) (r : Row) :
  avg_windspeed r = NaN -> keyed period r = false.
Proof.
  intros Ha. unfold keyed. rewrite Ha. cbn. rewrite !andb_false_r.
  by repeat destruct (String.eqb period _).
Qed.

Lemma mean_all_nan (l : list float) :
  Forall (fun x => np_isnan x = true) l -> mean l = NaN.
Proof.
  intros Hl. unfold mean.
  assert (E : dropna l = []).
  { unfold dropna. induction Hl as [|x l Hx _ IH]; cbn; [done|]. by rewrite Hx. }
  by rewrite E.
Qed.

(** The frame that [windspeed_point_df_maker] allocates for a site in
    range. *)
Lemma windspeed_point_df_maker_frame (windspeed_100 : list float)
    (time_df : list Timestamp) (coords_df : list (float * float))
    (series : list float) (POI_indx : nat) (σ : State) :
  (POI_indx < length coords_df)%nat ->
  exists rows,
    windspeed_point_df_maker windspeed_100 time_df coords_df series POI_indx σ
    = alloc (Decorated rows) σ
    /\ (time_df = [] ->
          length rows = length windspeed_100
          /\ Forall (fun r => year r = None /\ month r = None) rows)
    /\ (time_df <> [] ->
          length rows = length time_df
          /\ Forall (fun r => avg_windspeed r
                              = mean (take (length time_df) windspeed_100)) rows).
Proof.
  intros Hi. destruct (iloc_pair coords_df POI_indx) as [Hlat Hlon].
  destruct (lookup_lt_is_Some_2 coords_df POI_indx Hi) as [[lat lon] Hp].
  unfold windspeed_point_df_maker.
  rewrite !bind_run. unfold lift. rewrite Hlat, Hlon, Hp. cbn [fst snd].
  eexists. split; [reflexivity|]. destruct time_df as [|t time_df].
  - split; [|done]. intros _. split; [by rewrite length_map|].
    apply List.Forall_map, Forall_forall. by intros.
  - split; [done|]. intros _. split.
    + rewrite length_map, length_combine, length_align. lia.
    + apply List.Forall_map, Forall_forall. intros [? ?] _. cbn [avg_windspeed].
      by rewrite align_take_pad, mean_pad.
Qed.

(** X9: with an empty time axis, or with a series whose values over the
    time axis are all missing, the pipeline raises nothing and every
    table of [time_subset] comes out empty.  With the empty time axis the
    point frame is not empty: it has one row per value of
    [windspeed_100], without calendar cells. *)
Theorem pipeline_without_samples (np_sqrt : Q -> Q) (windspeed_100 : list float)
    (time_df : list Timestamp) (coords_df : list (float * float))
    (series : list float) (POI_indx : nat) (σ : State) (period : string) :
  period = "hour" \/ period = "day" \/ period = "month" ->
  (POI_indx < length coords_df)%nat ->
  time_df = []
  \/ Forall (fun x => np_isnan x = true) (take (length time_df) windspeed_100) ->
  exists σ1 df rows σ2 l table,
    windspeed_point_df_maker windspeed_100 time_df coords_df series POI_indx σ
    = (σ1, Ok df)
    /\ heap σ1 !! df = Some (Decorated rows)
    /\ (time_df = [] -> length rows = length windspeed_100)
    /\ time_subset np_sqrt period df σ1 = (σ2, Ok l)
    /\ heap σ2 !! l = Some table
    /\ frame_length table = 0%nat.
Proof.
  intros Hp Hi Hcase.
  destruct (windspeed_point_df_maker_frame windspeed_100 time_df coords_df series
              POI_indx σ Hi) as (rows & Hrun & Hempty & Hfull).
  rewrite Hrun. unfold alloc at 1.
  set (df := fresh (dom (heap σ))).
  set (σ1 := {| heap := <[df := Decorated rows]> (heap σ); stdout := stdout σ |}).
  assert (Hdf : heap σ1 !! df = Some (Decorated rows)) by apply lookup_insert_eq.
  assert (Hk : Forall (fun r => keyed period r = false) rows).
  { destruct time_df as [|t time_df].
    - destruct (Hempty eq_refl) as [_ Hnone].
      eapply Forall_impl; [exact Hnone|]. intros r [? ?]. by apply keyed_no_month.
    - destruct Hcase as [|Hnan]; [done|].
      destruct (Hfull ltac:(done)) as [_ Havg].
      eapply Forall_impl; [exact Havg|]. intros r Hr. apply keyed_nan.
      rewrite Hr. by apply mean_all_nan. }
  destruct (time_subset_no_keys np_sqrt period df σ1 rows Hp Hdf Hk)
    as (table & Hts & Hlen).
  exists σ1, df, rows. do 2 eexists. exists table.
  split; [reflexivity|]. split; [done|].
  split; [intros E; by apply Hempty|].
  split; [exact Hts|]. split; [apply lookup_insert_eq | done].
Qed.

Lemma pipeline_without_samples_witness :
  exists σ1 df rows σ2 l table,
    windspeed_point_df_maker [of_Z 4; of_Z 6] [] Examples.coords_df [] 0
      Examples.empty_state = (σ1, Ok df)
    /\ heap σ1 !! df = Some (Decorated rows)
    /\ length rows = 2%nat
    /\ time_subset Fixture.sqrt "month" df σ1 = (σ2, Ok l)
    /\ heap σ2 !! l = Some table
    /\ frame_length table = 0%nat.
Proof.
  destruct (pipeline_without_samples Fixture.sqrt [of_Z 4; of_Z 6] []
              Examples.coords_df [] 0 Examples.empty_state "month")
    as (σ1 & df & rows & σ2 & l & table & H1 & H2 & H3 & H4 & H5 & H6).
  - right. right. reflexivity.
  - simpl. lia.
  - left. reflexivity.
  - exists σ1, df, rows, σ2, l, table.
    split; [exact H1|]. split; [exact H2|]. split; [exact (H3 eq_refl)|].
    split; [exact H4|]. split; [exact H5 | exact H6].
Defined.

(** ** [multiple_site_index]: the remaining cases *)

Lemma set_columns_not_two (df : loc) (σ : State) (d : DataFrame) :
  heap σ !! df = Some d ->
  (forall cols rows, d = Frame cols rows -> length cols <> 2%nat) ->
  set_columns df [LStr "lat"; LStr "lon"] σ = (σ, Raise ValueError).
Proof.
  intros Hdf Hd. destruct d as [cols rows| | | |];
    try (unfold set_columns; run_M; by rewrite Hdf).
  by apply (set_columns_mismatch df σ cols rows Hdf), (Hd cols rows).
Qed.

(** X10: given a frame that does not have exactly two columns (a frame
    with another number of columns, a point frame, a table),
    [multiple_site_index] raises [ValueError] at its first line and the
    state is as it was.  Given a two-column frame without rows it raises
    nothing: it relabels the frame and returns a new, empty frame, at an
    address that was not in use. *)
Theorem multiple_site_index_edges `{KDTreeLib} (POI_df : loc)
    (coord_array : list (float * float)) (σ : State) (d : DataFrame) :
  heap σ !! POI_df = Some d ->
  ((forall cols rows, d = Frame cols rows -> length cols <> 2%nat) ->
     multiple_site_index POI_df coord_array σ = (σ, Raise ValueError))
  /\ (forall cols, d = Frame cols [] -> length cols = 2%nat ->
        exists σ' results,
          multiple_site_index POI_df coord_array σ = (σ', Ok results)
          /\ (results ∉ dom (heap σ))
          /\ heap σ' !! results = Some (Frame [] [])
          /\ heap σ' !! POI_df = Some (Frame [LStr "lat"; LStr "lon"] [])
          /\ stdout σ' = stdout σ).
Proof.
  intros Hdf. split.
  - intros Hd. unfold multiple_site_index.
    by rewrite bind_run, (set_columns_not_two _ _ _ Hdf Hd).
  - intros cols -> Hlen.
    destruct (multiple_site_index_run POI_df coord_array σ cols [] Hdf Hlen)
      as (H1 & H2 & H3 & H4 & _).
    specialize (H4 eq_refl).
    destruct (multiple_site_index POI_df coord_array σ) as [σ' r]. cbn in H3, H4.
    subst σ' r. do 2 eexists. split; [reflexivity|].
    split; [|split; [exact H2 | split; [exact H1 | done]]].
    intros Hin.
    apply (is_fresh (dom (<[POI_df := Frame [LStr "lat"; LStr "lon"] []]> (heap σ)))).
    rewrite dom_insert_L in Hin |- *. apply elem_of_union. by right.
Qed.

Lemma multiple_site_index_edges_witness :
  multiple_site_index (H:=Fixture.linear_scan) 0%nat Examples.coords
    (Examples.with_frame (Decorated Examples.two_hours))
  = (Examples.with_frame (Decorated Examples.two_hours), Raise ValueError).
Proof.
  apply (multiple_site_index_edges (H:=Fixture.linear_scan) 0%nat Examples.coords
           (Examples.with_frame (Decorated Examples.two_hours))
           (Decorated Examples.two_hours)).
  - reflexivity.
  - discriminate.
Defined.

(** ** The archived [multiple_site_index] *)

Lemma mapM_Ok_iff {A B : Type} (f : A -> result B) (l : list A) (ys : list B) :
  mapM f l = Ok ys <-> Forall2 (fun x y => f x = Ok y) l ys.
Proof.
  split; [apply mapM_Ok_Forall2|].
  induction 1 as [|x y l ys Hxy _ IH]; [done|]. cbn. by rewrite Hxy, IH.
Qed.

(** The first element on which [f] raises decides the error. *)
Lemma mapM_first_error {A B : Type} (f : A -> result B) (l : list A)
    (i : nat) (x : A) (e : exn) :
  l !! i = Some x -> f x = Raise e ->
  (forall j x', (j < i)%nat -> l !! j = Some x' -> exists y, f x' = Ok y) ->
  mapM f l = Raise e.
Proof.
  revert i. induction l as [|a l IH]; intros i Hi Hx Hbefore; [done|].
  destruct i as [|i]; cbn in Hi.
  - injection Hi as ->. cbn. by rewrite Hx.
  - destruct (Hbefore 0%nat a) as [y Hy]; [lia | done |].
    cbn. rewrite Hy. cbn.
    rewrite (IH i Hi Hx); [done|].
    intros j x' Hj Hx'. apply (Hbefore (S j) x'); [lia | done].
Qed.

(** X11: the draft of [multiple_site_index] in the archive, on a
    two-column frame: it relabels the frame in place and prints nothing;
    it returns a list of site indices exactly when the nearest-site query
    succeeds for every point, and the list then holds the nearest site of
    each point, in the order of the points; when a query fails, the error
    of the first point whose query fails is raised; and a second call on
    the same frame changes nothing more and gives the same result. *)
Theorem archive_multiple_site_index_outcome `{KDTreeLib} (POI_df : loc)
    (coord_array : list (float * float)) (σ : State)
    (cols : list label) (rows : list (list float)) :
  heap σ !! POI_df = Some (Frame cols rows) ->
  length cols = 2%nat ->
  let run := Archive.multiple_site_index POI_df coord_array σ in
  heap run.1 = <[POI_df := Frame [LStr "lat"; LStr "lon"] rows]> (heap σ)
  /\ stdout run.1 = stdout σ
  /\ (forall sites,
        run.2 = Ok sites
        <-> Forall2 (fun row site =>
                       nearest_site coord_array (row_lat row) (row_lon row) = Ok site)
                    rows sites)
  /\ (forall i row e,
        rows !! i = Some row ->
        nearest_site coord_array (row_lat row) (row_lon row) = Raise e ->
        (forall j row', (j < i)%nat -> rows !! j = Some row' ->
           exists site, nearest_site coord_array (row_lat row') (row_lon row') = Ok site) ->
        run.2 = Raise e)
  /\ Archive.multiple_site_index POI_df coord_array run.1 = run.
Proof.
  intros Hdf Hlen run. subst run.
  rewrite (archive_multiple_site_index _ _ _ _ _ Hdf Hlen). cbn [fst snd heap stdout].
  split; [done|]. split; [done|]. split; [|split].
  - intros sites. apply mapM_Ok_iff.
  - intros i row e Hrow He Hbefore.
    by apply (mapM_first_error _ rows i row e).
  - rewrite (archive_multiple_site_index _ _ _ [LStr "lat"; LStr "lon"] rows);
      [|by cbn; rewrite lookup_insert_eq | done].
    cbn [heap stdout]. by rewrite insert_insert_eq.
Qed.

Lemma archive_multiple_site_index_outcome_witness :
  (Archive.multiple_site_index (H:=Fixture.linear_scan) 0%nat Examples.coords
     Examples.sigma0).2 = Ok [1%nat; 0%nat].
Proof.
  destruct (archive_multiple_site_index_outcome (H:=Fixture.linear_scan) 0%nat
              Examples.coords Examples.sigma0
              [LStr "latitude"; LStr "longitude"]
              [ [of_Z 39; of_Z (-104)]; [of_Z 35; of_Z (-120)] ])
    as (_ & _ & Hok & _).
  - reflexivity.
  - reflexivity.
  - apply Hok. repeat constructor.
Defined.

Lemma head_frame (df : loc) (σ : State) (cols : list label) (rows : list (list float)) :
  heap σ !! df = Some (Frame cols rows) ->
  head df σ = alloc (Frame cols (take 5 rows)) σ.
Proof. intros Hdf. unfold head. rewrite bind_run. unfold deref. by rewrite Hdf. Qed.

(** X12: the test cell of the archive, [POI_df_test = coords_df.head()]
    followed by [multiple_site_index(POI_df_test, coords)], on a
    two-column frame of sites: [POI_df_test] is a new frame with the
    first five sites, and it is that frame which is relabelled [lat],
    [lon]; [coords_df] keeps its rows and its labels; and the result, when
    every query succeeds, is the nearest site of each of the first five
    sites, in order. *)
Theorem archive_test_cell_run `{KDTreeLib} (coords_df : loc)
    (coords : list (float * float)) (σ : State)
    (cols : list label) (rows : list (list float)) :
  heap σ !! coords_df = Some (Frame cols rows) ->
  length cols = 2%nat ->
  let run := archive_test_cell coords_df coords σ in
  let POI_df_test := fresh (dom (heap σ)) in
  POI_df_test <> coords_df
  /\ heap run.1 !! coords_df = Some (Frame cols rows)
  /\ heap run.1 !! POI_df_test = Some (Frame [LStr "lat"; LStr "lon"] (take 5 rows))
  /\ (forall l, l ∈ dom (heap σ) -> heap run.1 !! l = heap σ !! l)
  /\ (forall r, run.2 = Ok r ->
        r.1 = POI_df_test
        /\ length r.2 = Nat.min 5 (length rows)
        /\ Forall2 (fun row site =>
                      nearest_site coords (row_lat row) (row_lon row) = Ok site)
                   (take 5 rows) r.2).
Proof.
  intros Hdf Hlen run l. subst run.
  assert (Hne : l <> coords_df).
  { intros E. apply (is_fresh (dom (heap σ))). fold l. rewrite E.
    apply elem_of_dom. eauto. }
  assert (Hrun : archive_test_cell coords_df coords σ
            = ({| heap := <[l := Frame [LStr "lat"; LStr "lon"] (take 5 rows)]> (heap σ);
                  stdout := stdout σ |},
               match mapM (fun row => nearest_site coords (row_lat row) (row_lon row))
                          (take 5 rows) with
               | Ok sites => Ok (l, sites)
               | Raise e => Raise e
               end)).
  { unfold archive_test_cell.
    rewrite bind_run, (head_frame _ _ _ _ Hdf). unfold alloc at 1. fold l.
    rewrite bind_run.
    rewrite (archive_multiple_site_index l coords _ cols (take 5 rows));
      [|by cbn; rewrite lookup_insert_eq | done].
    cbn [heap stdout]. rewrite insert_insert_eq.
    by destruct (mapM _ (take 5 rows)). }
  rewrite Hrun. cbn [fst snd heap].
  split; [done|]. split; [by rewrite lookup_insert_ne|].
  split; [by rewrite lookup_insert_eq|]. split.
  - intros l' Hl'. rewrite lookup_insert_ne; [done|].
    intros <-. by apply (is_fresh (dom (heap σ))).
  - intros r Hr.
    destruct (mapM _ (take 5 rows)) as [sites|e] eqn:Hsites; [|done].
    injection Hr as <-. cbn. apply mapM_Ok_iff in Hsites.
    split; [done|]. split; [|done].
    rewrite <- (Forall2_length _ _ _ Hsites), length_take. done.
Qed.

Lemma archive_test_cell_run_witness :
  heap (archive_test_cell (H:=Fixture.linear_scan) 0%nat Examples.coords
          Examples.sigma0).1 !! 0%nat
  = Some (Frame [LStr "latitude"; LStr "longitude"]
                [ [of_Z 39; of_Z (-104)]; [of_Z 35; of_Z (-120)] ])
  /\ heap (archive_test_cell (H:=Fixture.linear_scan) 0%nat Examples.coords
             Examples.sigma0).1 !! 1%nat
     = Some (Frame [LStr "lat"; LStr "lon"]
                   [ [of_Z 39; of_Z (-104)]; [of_Z 35; of_Z (-120)] ]).
Proof.
  destruct (archive_test_cell_run (H:=Fixture.linear_scan) 0%nat Examples.coords
              Examples.sigma0 [LStr "latitude"; LStr "longitude"]
              [ [of_Z 39; of_Z (-104)]; [of_Z 35; of_Z (-120)] ])
    as (_ & H1 & H2 & _).
  - reflexivity.
  - reflexivity.
  - split; [exact H1 | exact H2].
Defined.

(** ** The cells of the notebook, run in order *)

Lemma extends_trans (σ1 σ2 σ3 : State) :
  extends σ1 σ2 -> extends σ2 σ3 -> extends σ1 σ3.
Proof.
  intros [H1 E1] [H2 E2]. split; [by etrans | by rewrite E2].
Qed.

Lemma extends_lookup (σ σ' : State) (l : loc) (d : DataFrame) :
  extends σ σ' -> heap σ !! l = Some d -> heap σ' !! l = Some d.
Proof. intros [Hsub _] Hl. by eapply lookup_weaken. Qed.

Lemma extends_dom (σ σ' : State) : extends σ σ' -> dom (heap σ) ⊆ dom (heap σ').
Proof. intros [Hsub _]. by apply subseteq_dom. Qed.

Lemma extends_refl (σ : State) : extends σ σ.
Proof. by split. Qed.

Lemma alloc_later (σ σ' : State) (a b : loc) :
  a ∈ dom (heap σ) -> extends σ σ' -> b ∉ dom (heap σ') -> a <> b.
Proof. intros Ha E Hb ->. apply Hb. by apply (extends_dom _ _ E). Qed.

Lemma fresh_earlier (σ σ' : State) (b : loc) :
  extends σ σ' -> b ∉ dom (heap σ') -> b ∉ dom (heap σ).
Proof. intros E Hb Hin. apply Hb. by apply (extends_dom _ _ E). Qed.

(** [alloc] adds the frame at an address that was not in use. *)
Lemma alloc_spec (d : DataFrame) (σ : State) :
  exists σ' l,
    alloc d σ = (σ', Ok l)
    /\ heap σ' !! l = Some d
    /\ extends σ σ'
    /\ l ∉ dom (heap σ).
Proof.
  unfold alloc. do 2 eexists. split; [reflexivity|]. cbn [heap stdout].
  split; [apply lookup_insert_eq|]. split; [|apply is_fresh].
  split; [|done]. cbn [heap]. apply insert_subseteq.
  apply not_elem_of_dom, is_fresh.
Qed.

Lemma time_subset_day_alloc (np_sqrt : Q -> Q) (df : loc) (σ : State) (rows : list Row) :
  heap σ !! df = Some (Decorated rows) ->
  dates_ok rows ->
  time_subset np_sqrt "day" df σ
  = alloc (DayTable (List.map (agg_day np_sqrt) (groupby_day rows))
             (Some (List.map day_row_date
                      (List.map (agg_day np_sqrt) (groupby_day rows))))) σ.
Proof.
  intros Hdf Hok. rewrite (time_subset_day _ _ _ _ Hdf).
  destruct (day_table_dates np_sqrt rows Hok) as [date Hdate]. rewrite Hdate.
  by apply mapM_to_datetime in Hdate as [-> _].
Qed.

Lemma select_month_hour (df : loc) (m : Z) (σ : State) (t : list HourRow) :
  heap σ !! df = Some (HourTable t) ->
  select_month df m σ = alloc (HourTable (List.filter (fun r => hr_month r =? m) t)) σ.
Proof.
  intros Hdf. unfold select_month. rewrite bind_run. unfold deref. by rewrite Hdf.
Qed.

Lemma windspeed_point_df_maker_alloc (windspeed_100 : list float)
    (time_df : list Timestamp) (coords_df : list (float * float))
    (series : list float) (POI_indx : nat) (σ : State) (lat lon : float) :
  time_df <> [] ->
  coords_df !! POI_indx = Some (lat, lon) ->
  exists rows,
    windspeed_point_df_maker windspeed_100 time_df coords_df series POI_indx σ
    = alloc (Decorated rows) σ
    /\ List.map calendar rows = List.map stamp time_df
    /\ Forall (fun r => latitude r = lat /\ longitude r = lon) rows
    /\ List.map windspeed rows
       = take (length time_df) windspeed_100
         ++ replicate (length time_df - length windspeed_100) NaN
    /\ Forall (fun r => avg_windspeed r
                        = mean (take (length time_df) windspeed_100)) rows.
Proof.
  intros Hne Hp.
  destruct (iloc_pair coords_df POI_indx) as [Hlat Hlon].
  rewrite (windspeed_point_df_maker_nonempty _ _ _ _ _ Hne).
  rewrite !bind_run. unfold lift. rewrite Hlat, Hlon, Hp. cbn [fst snd].
  eexists. split; [reflexivity|].
  split; [|split; [|split]].
  - apply map_combine_fst; [by intros | by rewrite length_align].
  - apply List.Forall_map, Forall_forall. by intros [? ?].
  - rewrite map_combine_snd; [apply align_take_pad | by intros | by rewrite length_align].
  - apply List.Forall_map, Forall_forall. intros [? ?] _. cbn.
    by rewrite align_take_pad, mean_pad.
Qed.

Lemma dates_ok_of_calendar (rows : list Row) (time_df : list Timestamp) :
  List.map calendar rows = List.map stamp time_df ->
  Forall (fun t => valid_timestamp t = true) time_df ->
  dates_ok rows.
Proof.
  revert time_df. induction rows as [|r rows IH]; intros [|t time_df] E Hv;
    try discriminate; [constructor|].
  cbn in E. injection E as Ey Em Ed _ E.
  apply Forall_cons in Hv as [Ht Hv]. constructor; [|by eapply IH].
  intros y m d Hy Hm Hd. rewrite Ey in Hy. rewrite Em in Hm. rewrite Ed in Hd.
  injection Hy as <-. injection Hm as <-. injection Hd as <-.
  unfold valid_timestamp in Ht.
  by apply andb_true_iff in Ht as [[Ht _]%andb_true_iff _].
Qed.

(** X13: the notebook's cells, run in order, when the nearest site [i]
    is found among the coordinates, its series is extracted, and the time
    axis holds at least one timestamp.  The run raises nothing and prints
    nothing.  [df_100m] has one row per timestamp, with the calendar of
    the timestamp, the coordinates of site [i], the extracted series
    aligned on the time axis, and its mean.  The daily, monthly and hourly
    tables are all three computed from the rows of [df_100m], which is
    not modified by the later cells; [july_var] and [march_var] hold the
    rows of the hourly table whose month is 7 and 3, in their order; the
    six frames are at six different addresses, none of which was in use;
    and every frame that existed keeps its value. *)
Theorem notebook_run `{KDTreeLib} (np_sqrt : Q -> Q) (raw_h5 : gmap string Dataset)
    (time_df : list Timestamp) (coords : list (float * float)) (POI : float * float)
    (σ : State) (i : nat) (ws : list float) (lat lon : float) :
  nearest_site coords POI.1 POI.2 = Ok i ->
  h5_extractor raw_h5 "windspeed_100m" i = Ok ws ->
  coords !! i = Some (lat, lon) ->
  time_df <> [] ->
  Forall (fun t => valid_timestamp t = true) time_df ->
  exists σ' nb rows,
    notebook np_sqrt raw_h5 time_df coords POI σ = (σ', Ok nb)
    /\ nb_POI_indx nb = i
    /\ nb_windspeed_100 nb = ws
    /\ heap σ' !! nb_df_100m nb = Some (Decorated rows)
    /\ List.map calendar rows = List.map stamp time_df
    /\ Forall (fun r => latitude r = lat /\ longitude r = lon) rows
    /\ List.map windspeed rows
       = take (length time_df) ws ++ replicate (length time_df - length ws) NaN
    /\ Forall (fun r => avg_windspeed r = mean (take (length time_df) ws)) rows
    /\ heap σ' !! nb_day_var nb
       = Some (DayTable (List.map (agg_day np_sqrt) (groupby_day rows))
                 (Some (List.map day_row_date
                          (List.map (agg_day np_sqrt) (groupby_day rows)))))
    /\ heap σ' !! nb_monthly_var nb
       = Some (MonthTable (List.map (agg_month np_sqrt) (groupby_month rows)))
    /\ heap σ' !! nb_hourly_var nb
       = Some (HourTable (List.map (agg_hour np_sqrt) (groupby_hour rows)))
    /\ heap σ' !! nb_july_var nb
       = Some (HourTable (List.filter (fun t => hr_month t =? 7)
                            (List.map (agg_hour np_sqrt) (groupby_hour rows))))
    /\ heap σ' !! nb_march_var nb
       = Some (HourTable (List.filter (fun t => hr_month t =? 3)
                            (List.map (agg_hour np_sqrt) (groupby_hour rows))))
    /\ NoDup [nb_df_100m nb; nb_day_var nb; nb_monthly_var nb; nb_hourly_var nb;
              nb_july_var nb; nb_march_var nb]
    /\ Forall (fun l => l ∉ dom (heap σ))
         [nb_df_100m nb; nb_day_var nb; nb_monthly_var nb; nb_hourly_var nb;
          nb_july_var nb; nb_march_var nb]
    /\ extends σ σ'.
Proof.
  intros Hnear Hext Hp Hne Hvalid.
  destruct (windspeed_point_df_maker_alloc ws time_df coords ws i σ lat lon Hne Hp)
    as (rows & Hmk & Hcal & Hll & Hws & Havg).
  pose proof (dates_ok_of_calendar rows time_df Hcal Hvalid) as Hok.
  unfold notebook.
  rewrite bind_run. unfold lift at 1. rewrite Hnear.
  rewrite bind_run. unfold lift at 1. rewrite Hext.
  rewrite bind_run, Hmk.
  destruct (alloc_spec (Decorated rows) σ) as (σ1 & df & -> & Hdf1 & E1 & F1).
  rewrite bind_run, (time_subset_day_alloc _ _ _ _ Hdf1 Hok).
  destruct (alloc_spec (DayTable (List.map (agg_day np_sqrt) (groupby_day rows))
              (Some (List.map day_row_date
                       (List.map (agg_day np_sqrt) (groupby_day rows))))) σ1)
    as (σ2 & day & -> & Hday2 & E2 & F2).
  pose proof (extends_lookup _ _ _ _ E2 Hdf1) as Hdf2.
  rewrite bind_run, (time_subset_month _ _ _ _ Hdf2).
  destruct (alloc_spec (MonthTable (List.map (agg_month np_sqrt) (groupby_month rows))) σ2)
    as (σ3 & monthly & -> & Hmonthly3 & E3 & F3).
  pose proof (extends_lookup _ _ _ _ E3 Hdf2) as Hdf3.
  rewrite bind_run, (time_subset_hour _ _ _ _ Hdf3).
  destruct (alloc_spec (HourTable (List.map (agg_hour np_sqrt) (groupby_hour rows))) σ3)
    as (σ4 & hourly & -> & Hhourly4 & E4 & F4).
  rewrite bind_run, (select_month_hour _ _ _ _ Hhourly4).
  destruct (alloc_spec (HourTable (List.filter (fun t => hr_month t =? 7)
              (List.map (agg_hour np_sqrt) (groupby_hour rows)))) σ4)
    as (σ5 & july & -> & Hjuly5 & E5 & F5).
  pose proof (extends_lookup _ _ _ _ E5 Hhourly4) as Hhourly5.
  rewrite bind_run, (select_month_hour _ _ _ _ Hhourly5).
  destruct (alloc_spec (HourTable (List.filter (fun t => hr_month t =? 3)
              (List.map (agg_hour np_sqrt) (groupby_hour rows)))) σ5)
    as (σ6 & march & -> & Hmarch6 & E6 & F6).
  do 3 eexists. split; [reflexivity|]. cbn [nb_POI_indx nb_windspeed_100 nb_df_100m
    nb_day_var nb_monthly_var nb_hourly_var nb_july_var nb_march_var].
  pose proof (extends_trans _ _ _ E5 E6) as E56.
  pose proof (extends_trans _ _ _ E4 E56) as E46.
  pose proof (extends_trans _ _ _ E3 E46) as E36.
  pose proof (extends_trans _ _ _ E2 E36) as E26.
  pose proof (extends_trans _ _ _ E1 E26) as E16.
  split; [done|]. split; [done|].
  split; [by apply (extends_lookup _ _ _ _ E26)|].
  split; [done|]. split; [done|]. split; [done|]. split; [done|].
  split; [by apply (extends_lookup _ _ _ _ E36)|].
  split; [by apply (extends_lookup _ _ _ _ E46)|].
  split; [by apply (extends_lookup _ _ _ _ E56)|].
  split; [by apply (extends_lookup _ _ _ _ E6)|].
  split; [done|].
  pose proof (extends_trans _ _ _ E2 E3) as E13.
  pose proof (extends_trans _ _ _ E13 E4) as E14.
  pose proof (extends_trans _ _ _ E14 E5) as E15.
  pose proof (extends_trans _ _ _ E3 E4) as E24.
  pose proof (extends_trans _ _ _ E24 E5) as E25.
  pose proof (extends_trans _ _ _ E4 E5) as E35.
  pose proof (extends_trans _ _ _ E1 E2) as E02.
  pose proof (extends_trans _ _ _ E1 E13) as E03.
  pose proof (extends_trans _ _ _ E1 E14) as E04.
  pose proof (extends_trans _ _ _ E1 E15) as E05.
  apply elem_of_dom_2 in Hdf1, Hday2, Hmonthly3, Hhourly4, Hjuly5.
  split; [|split; [|done]].
  - rewrite !NoDup_cons, !not_elem_of_cons. split_and!;
      first [ apply not_elem_of_nil | apply NoDup_nil_2
            | match goal with
              | Ha : ?a ∈ dom (heap ?s), Fb : ?b ∉ dom (heap ?s') |- ?a <> ?b =>
                  apply (alloc_later s s' a b Ha); [|exact Fb];
                  first [apply extends_refl | assumption]
              end ].
  - rewrite !Forall_cons. split_and!;
      first [ apply Forall_nil_2 | assumption
            | match goal with
              | E : extends σ ?s', Fb : ?b ∉ dom (heap ?s') |- ?b ∉ dom (heap σ) =>
                  exact (fresh_earlier σ s' b E Fb)
              end ].
Qed.

Lemma notebook_run_witness :
  exists σ' nb rows,
    notebook (H:=Fixture.linear_scan) Fixture.sqrt Examples.store500 Examples.time_two
      Examples.coords (of_Z 34, of_Z (-119)) Examples.empty_state = (σ', Ok nb)
    /\ nb_POI_indx nb = 0%nat
    /\ nb_windspeed_100 nb = [of_Z 5]
    /\ heap σ' !! nb_df_100m nb = Some (Decorated rows)
    /\ List.map windspeed rows = [of_Z 5; NaN]
    /\ heap σ' !! nb_hourly_var nb
       = Some (HourTable (List.map (agg_hour Fixture.sqrt) (groupby_hour rows))).
Proof.
  destruct (notebook_run (H:=Fixture.linear_scan) Fixture.sqrt Examples.store500
              Examples.time_two Examples.coords (of_Z 34, of_Z (-119))
              Examples.empty_state 0%nat [of_Z 5] (of_Z 34) (of_Z (-119)))
    as (σ' & nb & rows & Hrun & Hi & Hws & Hdf & _ & _ & Hcol & _ & _ & _ & Hhour & _).
  - reflexivity.
  - reflexivity.
  - reflexivity.
  - discriminate.
  - repeat constructor.
  - exists σ', nb, rows. split; [exact Hrun|]. split; [exact Hi|].
    split; [exact Hws|]. split; [exact Hdf|]. split; [exact Hcol | exact Hhour].
Defined.

(** ** A full year by hour of the day and by day *)







Section FullYear.
(** The third key: the hour of the day, or the day of the month. *)
Variable part : Timestamp -> Z.
Variable cell : Row -> option Z.
Variable key : Row -> option (Z * Z * Z).

Hypothesis cell_of_stamp : forall r t, calendar r = stamp t -> cell r = Some (part t).
Hypothesis key_cells :
  forall r, key r = (y ← year r; m ← month r; x ← cell r; Some (y, m, x)).




End FullYear.






















(** ** The bounding limits *)

Section Extremum.
(** [pick] is [fmax] or [fmin]; [R z m] says that [m] is at least as far
    out as [z]. *)
Variable pick : float -> float -> float.
Variable R : float -> float -> Prop.

Hypothesis pick_in : forall x y, pick x y = x \/ pick x y = y.
Hypothesis pick_l :
  forall x y, np_isnan x = false -> np_isnan y = false -> R x (pick x y).
Hypothesis pick_r :
  forall x y, np_isnan x = false -> np_isnan y = false -> R y (pick x y).
Hypothesis R_refl : forall x, np_isnan x = false -> R x x.
Hypothesis R_trans : forall x y z, R x y -> R y z -> R x z.

Lemma fold_pick (v : list float) (x : float) :
  Forall (fun z => np_isnan z = false) (x :: v) ->
  In (fold_left pick v x) (x :: v)
  /\ np_isnan (fold_left pick v x) = false
  /\ Forall (fun z => R z (fold_left pick v x)) (x :: v).
Proof.
  revert x. induction v as [|a v IH]; intros x Hall.
  - apply Forall_cons in Hall as [Hx _]. cbn.
    split; [by left|]. split; [done|]. constructor; [by apply R_refl | constructor].
  - apply Forall_cons in Hall as [Hx Hall]. apply Forall_cons in Hall as [Ha Hv].
    assert (Hp : np_isnan (pick x a) = false).
    { by destruct (pick_in x a) as [-> | ->]. }
    destruct (IH (pick x a)) as (Hin & Hnan & Hle); [by constructor|].
    apply Forall_cons in Hle as [Hpm Hle]. cbn [fold_left].
    split; [|split; [done|]].
    + destruct Hin as [Hin|Hin]; [|by right; right].
      rewrite <- Hin. destruct (pick_in x a) as [-> | ->]; [by left | by right; left].
    + constructor; [|constructor; [|done]].
      * apply (R_trans _ (pick x a)); [by apply pick_l | done].
      * apply (R_trans _ (pick x a)); [by apply pick_r | done].
Qed.
End Extremum.

Lemma dropna_notna (s : list float) : Forall (fun z => np_isnan z = false) (dropna s).
Proof.
  unfold dropna. apply Forall_forall. intros z Hz%list_elem_of_In.
  apply List.filter_In in Hz as [_ Hz]. by destruct (np_isnan z).
Qed.

Lemma In_dropna (s : list float) (x : float) :
  In x (dropna s) <-> In x s /\ np_isnan x = false.
Proof.
  unfold dropna. rewrite List.filter_In.
  destruct (np_isnan x); cbn; intuition congruence.
Qed.

Lemma fmax_in (x y : float) : fmax x y = x \/ fmax x y = y.
Proof. unfold fmax. destruct (fleb x y); auto. Qed.

Lemma fmin_in (x y : float) : fmin x y = x \/ fmin x y = y.
Proof. unfold fmin. destruct (fleb x y); auto. Qed.

Lemma fmax_l (x y : float) :
  np_isnan x = false -> np_isnan y = false -> fleb x (fmax x y) = true.
Proof.
  intros Hx Hy. unfold fmax. destruct (fleb x y) eqn:E; [done | by apply fleb_refl].
Qed.

Lemma fmax_r (x y : float) :
  np_isnan x = false -> np_isnan y = false -> fleb y (fmax x y) = true.
Proof.
  intros Hx Hy. unfold fmax. destruct (fleb x y) eqn:E; [by apply fleb_refl|].
  destruct (fleb_total x y Hx Hy); [congruence | done].
Qed.

Lemma fmin_l (x y : float) :
  np_isnan x = false -> np_isnan y = false -> fleb (fmin x y) x = true.
Proof.
  intros Hx Hy. unfold fmin. destruct (fleb x y) eqn:E; [by apply fleb_refl|].
  destruct (fleb_total x y Hx Hy); [congruence | done].
Qed.

Lemma fmin_r (x y : float) :
  np_isnan x = false -> np_isnan y = false -> fleb (fmin x y) y = true.
Proof.
  intros Hx Hy. unfold fmin. destruct (fleb x y) eqn:E; [done | by apply fleb_refl].
Qed.

(** The maximum and the minimum of a column with a value that is not
    NaN are values of the column, not NaN, and bound the values that are
    not NaN; without such a value they are NaN. *)
Lemma series_max_spec (s : list float) :
  (dropna s = [] -> series_max s = NaN)
  /\ (dropna s <> [] ->
        In (series_max s) s
        /\ np_isnan (series_max s) = false
        /\ forall x, In x s -> np_isnan x = false -> fleb x (series_max s) = true).
Proof.
  unfold series_max. pose proof (dropna_notna s) as Hall.
  pose proof (In_dropna s) as Hin.
  destruct (dropna s) as [|x v]; [done|]. split; [done|]. intros _.
  destruct (fold_pick fmax (fun z m => fleb z m = true) fmax_in fmax_l fmax_r
              fleb_refl fleb_trans v x Hall) as (Hm & Hnan & Hle).
  split; [by apply Hin in Hm as [? _]|]. split; [done|].
  intros z Hz Hzn. rewrite Forall_forall in Hle. apply Hle.
  apply list_elem_of_In, Hin. done.
Qed.

Lemma series_min_spec (s : list float) :
  (dropna s = [] -> series_min s = NaN)
  /\ (dropna s <> [] ->
        In (series_min s) s
        /\ np_isnan (series_min s) = false
        /\ forall x, In x s -> np_isnan x = false -> fleb (series_min s) x = true).
Proof.
  unfold series_min. pose proof (dropna_notna s) as Hall.
  pose proof (In_dropna s) as Hin.
  destruct (dropna s) as [|x v]; [done|]. split; [done|]. intros _.
  destruct (fold_pick fmin (fun z m => fleb m z = true) fmin_in fmin_l fmin_r
              fleb_refl (fun a b c Hab Hbc => fleb_trans c b a Hbc Hab) v x Hall)
    as (Hm & Hnan & Hle).
  split; [by apply Hin in Hm as [? _]|]. split; [done|].
  intros z Hz Hzn. rewrite Forall_forall in Hle. apply Hle.
  apply list_elem_of_In, Hin. done.
Qed.

(** X16: the bounding limits of the last cell.  Every site whose
    latitude is a number (not NaN) has its latitude between [lat_min] and
    [lat_max], and likewise for the longitude; when some site has a
    latitude that is a number, both latitude limits are latitudes of sites
    of the data set, and likewise for the longitude; and when no site has,
    both limits are NaN. *)
Theorem bounding_limits_bound (coords_df : list (float * float)) :
  let L := bounding_limits coords_df in
  (forall p, In p coords_df ->
     (np_isnan p.1 = false ->
        fleb (lat_min L) p.1 = true /\ fleb p.1 (lat_max L) = true
        /\ In (lat_min L) (coords_df.*1) /\ In (lat_max L) (coords_df.*1))
     /\ (np_isnan p.2 = false ->
           fleb (long_min L) p.2 = true /\ fleb p.2 (long_max L) = true
           /\ In (long_min L) (coords_df.*2) /\ In (long_max L) (coords_df.*2)))
  /\ (Forall (fun p => np_isnan p.1 = true) coords_df ->
        lat_min L = NaN /\ lat_max L = NaN)
  /\ (Forall (fun p => np_isnan p.2 = true) coords_df ->
        long_min L = NaN /\ long_max L = NaN).
Proof.
  intros L. subst L. unfold bounding_limits. cbn [lat_min lat_max long_min long_max].
  assert (Hsome : forall (s : list float) (x : float),
            In x s -> np_isnan x = false -> dropna s <> []).
  { intros s x Hx Hn E. assert (Hd : In x (dropna s)) by by apply In_dropna.
    by rewrite E in Hd. }
  assert (Hnone : forall s : list float,
            Forall (fun x => np_isnan x = true) s -> dropna s = []).
  { intros s Hs. unfold dropna. induction Hs as [|x s Hx _ IH]; [done|].
    cbn. by rewrite Hx. }
  split; [|split].
  - intros p Hp. split; intros Hn.
    + assert (Hin : In p.1 (coords_df.*1)) by by apply in_map.
      pose proof (Hsome _ _ Hin Hn) as Hne.
      destruct (series_max_spec (coords_df.*1)) as [_ Hmax].
      destruct (series_min_spec (coords_df.*1)) as [_ Hmin].
      destruct (Hmax Hne) as (? & _ & Hub). destruct (Hmin Hne) as (? & _ & Hlb).
      split; [by apply Hlb|]. split; [by apply Hub | done].
    + assert (Hin : In p.2 (coords_df.*2)) by by apply in_map.
      pose proof (Hsome _ _ Hin Hn) as Hne.
      destruct (series_max_spec (coords_df.*2)) as [_ Hmax].
      destruct (series_min_spec (coords_df.*2)) as [_ Hmin].
      destruct (Hmax Hne) as (? & _ & Hub). destruct (Hmin Hne) as (? & _ & Hlb).
      split; [by apply Hlb|]. split; [by apply Hub | done].
  - intros Hall.
    assert (E : dropna (coords_df.*1) = []).
    { apply Hnone. by apply List.Forall_map. }
    split; [by apply series_min_spec | by apply series_max_spec].
  - intros Hall.
    assert (E : dropna (coords_df.*2) = []).
    { apply Hnone. by apply List.Forall_map. }
    split; [by apply series_min_spec | by apply series_max_spec].
Qed.

Lemma bounding_limits_bound_witness :
  fleb (lat_min (bounding_limits Examples.coords)) (of_Z 34) = true
  /\ fleb (of_Z 34) (lat_max (bounding_limits Examples.coords)) = true
  /\ lat_max (bounding_limits Examples.coords) = of_Z 40
  /\ long_min (bounding_limits Examples.coords) = of_Z (-119).
Proof.
  pose proof (bounding_limits_bound Examples.coords) as Hb. cbv zeta in Hb.
  destruct Hb as [Hb _].
  destruct (Hb (of_Z 34, of_Z (-119))) as [Hlat _]; [left; reflexivity|].
  destruct (Hlat eq_refl) as (H1 & H2 & _).
  split; [exact H1|]. split; [exact H2|]. split; reflexivity.
Defined.

(** ** The errors of the notebook's cells *)

(** X17: the error the notebook's cells stop with.  An error of the
    nearest-site query is the error of the run; when the store has no
    [windspeed_100m] the run raises [KeyError]; when the site found is
    not below the number of sites of the stored array it raises
    [IndexError]; and when the series was extracted but the site found is
    not a row of the coordinates, [windspeed_point_df_maker] raises
    [IndexError]. *)
Theorem notebook_first_error `{KDTreeLib} (np_sqrt : Q -> Q)
    (raw_h5 : gmap string Dataset) (time_df : list Timestamp)
    (coords : list (float * float)) (POI : float * float) (σ : State) :
  (forall e, nearest_site coords POI.1 POI.2 = Raise e ->
     (notebook np_sqrt raw_h5 time_df coords POI σ).2 = Raise e)
  /\ (forall i, nearest_site coords POI.1 POI.2 = Ok i ->
        raw_h5 !! "windspeed_100m" = None ->
        (notebook np_sqrt raw_h5 time_df coords POI σ).2 = Raise KeyError)
  /\ (forall i ds, nearest_site coords POI.1 POI.2 = Ok i ->
        raw_h5 !! "windspeed_100m" = Some ds ->
        (nsites ds <= i)%nat ->
        (notebook np_sqrt raw_h5 time_df coords POI σ).2 = Raise IndexError)
  /\ (forall i ws, nearest_site coords POI.1 POI.2 = Ok i ->
        h5_extractor raw_h5 "windspeed_100m" i = Ok ws ->
        (length coords <= i)%nat ->
        (notebook np_sqrt raw_h5 time_df coords POI σ).2 = Raise IndexError).
Proof.
  split; [|split; [|split]].
  - intros e He. unfold notebook. rewrite bind_run. unfold lift at 1. by rewrite He.
  - intros i Hi Hnone. unfold notebook.
    rewrite bind_run. unfold lift at 1. rewrite Hi.
    rewrite bind_run. unfold lift at 1.
    unfold h5_extractor, getitem. by rewrite Hnone.
  - intros i ds Hi Hds Hle. unfold notebook.
    rewrite bind_run. unfold lift at 1. rewrite Hi.
    rewrite bind_run. unfold lift at 1.
    unfold h5_extractor, getitem, slice_column. rewrite Hds. cbn -[Nat.ltb].
    by rewrite (proj2 (Nat.ltb_ge i (nsites ds)) Hle).
  - intros i ws Hi Hws Hle. unfold notebook.
    rewrite bind_run. unfold lift at 1. rewrite Hi.
    rewrite bind_run. unfold lift at 1. rewrite Hws.
    rewrite bind_run.
    destruct (iloc_pair coords i) as [Hlat _].
    unfold windspeed_point_df_maker. rewrite bind_run. unfold lift at 1.
    by rewrite Hlat, (proj2 (lookup_ge_None coords i) Hle).
Qed.

Lemma notebook_first_error_witness :
  (notebook (H:=Fixture.linear_scan) Fixture.sqrt ∅ Examples.time_two
     Examples.coords (of_Z 34, of_Z (-119)) Examples.empty_state).2
  = Raise KeyError.
Proof.
  destruct (notebook_first_error (H:=Fixture.linear_scan) Fixture.sqrt ∅
              Examples.time_two Examples.coords (of_Z 34, of_Z (-119))
              Examples.empty_state) as (_ & Hkey & _).
  apply (Hkey 0%nat); reflexivity.
Defined.
